(** * Chat orchestration: the chat client and the React chat store

    A shallow embedding of
    - [ChatClient], the request orchestrator: [removeAssistantResponse],
      [submitMessage], [resubmitLastUserMessage], [resumeStream],
      [addToolResult], [stopStream], [triggerRequest];
    - [ReactStateManager] and [ChatStore] of
      [packages/react/src/chat-store.ts];
    - the [ChatState] contract of [packages/ai/src/ui/chat/types.ts], in the
      implementation [ReactStateManager] gives it.

    Conventions of the embedding.
    - The chat state is threaded explicitly.  What the client does to the
      outside (notifying the store's subscribers, calling the transport,
      firing an abort signal, invoking the caller's callbacks) is appended
      to a log, so that "no request was sent" and "[onError] was not
      invoked" are statements about that log.
    - The transport, the merger ([processUIMessageStream]) and the other
      imported functions whose sources are absent are parameters
      ([Collaborators.t]).  A response is the list of drafts the merger
      publishes and the way the stream ends; a cancelled stream ends by
      throwing a value named [AbortError].
    - An asynchronous method is run to completion: the jobs given to the
      serial job executor run one after the other, and no other call is
      interleaved with a request cycle.  The one run that cannot complete
      is modelled as such: a request awaited inside a job of the executor
      (the job of [addToolResult]) waits for the jobs of the merger, which
      are queued behind that very job ([triggerRequestInJob]).  The
      callbacks of the caller are opaque and return normally.
    - A thrown value is one whose properties can be read ([JsError.t]),
      or it is [null] or [undefined]; on these the [catch] block of
      [triggerRequest] itself throws when it reads [err.name], and the
      call is rejected.
    - The recursion of [triggerRequest] is bounded by a number of cycles
      ([fuel]); [triggerRequest_settles] shows the bound the policy of the
      specification enforces. *)

From Stdlib Require Import ZArith String List Bool Lia.
From stdpp Require Import base option list strings pretty gmap fin_maps.

Local Open Scope Z_scope.

(* ===================================================================== *)
(** ** JavaScript arrays *)
(* ===================================================================== *)

(** [Array.prototype.slice(start, end)]: a negative bound counts from the
    end of the array, both bounds are clamped to [0, length], and an absent
    [end] means the length. *)
Definition js_slice {A} (l : list A) (start : Z) (end_ : option Z) : list A :=
  let len := Z.of_nat (length l) in
  let clamp (i : Z) := if i <? 0 then Z.max (len + i) 0 else Z.min i len in
  let k := clamp start in
  let final := match end_ with Some e => clamp e | None => len end in
  take (Z.to_nat (final - k)) (drop (Z.to_nat k) l).

(** [arr[i]] for a numeric index: [undefined] out of range. *)
Definition js_index {A} (l : list A) (i : Z) : option A :=
  if i <? 0 then None else l !! Z.to_nat i.

(* ===================================================================== *)
(** ** Data model *)
(* ===================================================================== *)

Inductive ChatStatus := submitted | streaming | ready | error.

Inductive Role := user | assistant | system.

Inductive RequestType := generate | resume.

(** A thrown JavaScript value other than [null] and [undefined], as far as
    the client inspects it: [err.name] and [err instanceof Error].  The
    client compares the name with ['AbortError'] only, so a value without a
    name is one whose name is some other string.  A thrown [null] or
    [undefined] has no properties to read and is no [JsError.t]: see
    [StreamThrewNullish]. *)
Module JsError.
Record t := mk { name : string; message : string; instanceofError : bool }.
End JsError.

(** Modelled from the spec: the states of a tool invocation (the message
    types of [ui-messages] are not part of the sources at hand). *)
Inductive ToolInvocationState :=
  input_streaming | input_available | output_available | output_error.

(** Modelled from the spec: a tool invocation with its call id, name,
    arguments, state, result (present in terminal states only) and the step
    of the tool loop that produced it. *)
Module ToolInvocation.
Record t := mk {
  toolCallId : string;
  toolName : string;
  args : string;
  state : ToolInvocationState;
  result : option string;
  step : nat
}.
End ToolInvocation.

(** Modelled from the spec: the tagged union of message parts. *)
Inductive Part :=
| TextPart (text : string)
| ReasoningPart (text : string)
| ToolInvocationPart (toolInvocation : ToolInvocation.t)
| DataPart (namespace payload : string)
| SourcePart (source : string)
| FilePart (file : string)
| StepBoundaryPart.

(** Modelled from the spec: a message.  The client itself reads only [id]
    and [role]. *)
Module UIMessage.
Record t := mk { id : string; role : Role; parts : list Part }.
End UIMessage.

(** [CreateUIMessage]: a message whose id may still be absent. *)
Module CreateUIMessage.
Record t := mk { id : option string; role : Role; parts : list Part }.
End CreateUIMessage.

(** Modelled from the spec: the accumulator of the in-flight assistant
    message.  The client reads only its draft [message]. *)
Module StreamingUIMessageState.
Record t := mk { message : UIMessage.t }.
End StreamingUIMessageState.

(** [ActiveResponse] of [chat/types.ts].  An [AbortController] is an object
    shared with the transport; it is represented by its allocation number. *)
Module ActiveResponse.
Record t := mk {
  state : StreamingUIMessageState.t;
  abortController : option nat
}.
End ActiveResponse.

(** [ChatStoreEvent] of [chat-store.ts]. *)
Inductive ChatStoreEventType := chat_messages_changed | chat_status_changed.

Module ChatStoreEvent.
Record t := mk {
  type : ChatStoreEventType;
  chatId : string;
  error : option JsError.t
}.
End ChatStoreEvent.

(** What the transport is called with ([transport.submitMessages]). *)
Module TransportRequest.
Record t := mk {
  chatId : string;
  messages : list UIMessage.t;
  body : option string;
  headers : option (list (string * string));
  abortController : option nat;
  requestType : RequestType
}.
End TransportRequest.

(** [ExtendedCallOptions]: request options and the optional callbacks,
    each callback standing for an opaque function of the caller. *)
Module CallOptions.
Record t := mk {
  headers : option (list (string * string));
  body : option string;
  onError : option nat;
  onToolCall : option nat;
  onFinish : option nat
}.
Definition none : t := mk None None None None None.
End CallOptions.

(** Everything observable from outside the chat state. *)
Inductive Effect :=
| OnChatChanged (subscriber : nat) (event : ChatStoreEvent.t)
| SubmitMessages (request : TransportRequest.t)
| Abort (controller : nat)
| OnError (callback : nat) (err : JsError.t)
| OnFinish (callback : nat) (message : UIMessage.t).

#[global] Instance ChatStatus_eq_dec : EqDecision ChatStatus.
Proof. solve_decision. Defined.
#[global] Instance Role_eq_dec : EqDecision Role.
Proof. solve_decision. Defined.
#[global] Instance RequestType_eq_dec : EqDecision RequestType.
Proof. solve_decision. Defined.

(* ===================================================================== *)
(** ** The chat state ([ChatState]) and its surroundings *)
(* ===================================================================== *)

(** The fields of [ChatState] as [ReactStateManager] holds them. *)
Module ChatState.
Record t := mk {
  id : string;
  messages : list UIMessage.t;
  status : ChatStatus;
  error : option JsError.t;
  activeResponse : option ActiveResponse.t
}.
End ChatState.

(** What lives outside the single chat: the store's subscribers (the [emit]
    closure handed to every [ReactStateManager] iterates over them), the
    counters behind [generateId] and [new AbortController()], the number of
    transport calls made so far, and the log of effects. *)
Module Runtime.
Record t := mk {
  subscribers : list nat;
  ids : nat;
  controllers : nat;
  requests : nat;
  log : list Effect
}.
Definition init : t := mk [] 0%nat 0%nat 0%nat [].
End Runtime.

(** One chat together with its surroundings. *)
Module World.
Record t := mk { chat : ChatState.t; rt : Runtime.t }.
End World.

Definition with_chat (f : ChatState.t → ChatState.t) (w : World.t) : World.t :=
  World.mk (f (World.chat w)) (World.rt w).

Definition with_rt (f : Runtime.t → Runtime.t) (w : World.t) : World.t :=
  World.mk (World.chat w) (f (World.rt w)).

(** Appending to the log of effects. *)
Definition record (es : list Effect) (w : World.t) : World.t :=
  with_rt (λ r, Runtime.mk (Runtime.subscribers r) (Runtime.ids r)
                  (Runtime.controllers r) (Runtime.requests r)
                  (Runtime.log r ++ es)) w.

(** Reading the chat. *)
Definition idOf (w : World.t) : string := ChatState.id (World.chat w).
Definition messagesOf (w : World.t) : list UIMessage.t :=
  ChatState.messages (World.chat w).
Definition statusOf (w : World.t) : ChatStatus :=
  ChatState.status (World.chat w).
Definition errorOf (w : World.t) : option JsError.t :=
  ChatState.error (World.chat w).
Definition activeResponseOf (w : World.t) : option ActiveResponse.t :=
  ChatState.activeResponse (World.chat w).
Definition logOf (w : World.t) : list Effect := Runtime.log (World.rt w).

(** Plain field assignments. *)
Definition assign_messages (messages : list UIMessage.t) (w : World.t) : World.t :=
  with_chat (λ c, ChatState.mk (ChatState.id c) messages (ChatState.status c)
                    (ChatState.error c) (ChatState.activeResponse c)) w.

Definition assign_status (status : ChatStatus) (err : option JsError.t)
    (w : World.t) : World.t :=
  with_chat (λ c, ChatState.mk (ChatState.id c) (ChatState.messages c) status
                    err (ChatState.activeResponse c)) w.

Definition assign_activeResponse (activeResponse : option ActiveResponse.t)
    (w : World.t) : World.t :=
  with_chat (λ c, ChatState.mk (ChatState.id c) (ChatState.messages c)
                    (ChatState.status c) (ChatState.error c) activeResponse) w.

(* ===================================================================== *)
(** ** [ReactStateManager] *)
(* ===================================================================== *)

Module ReactStateManager.

(** [new ReactStateManager(emit, id, messages)] *)
Definition new (id : string) (messages : option (list UIMessage.t))
    : ChatState.t :=
  ChatState.mk id (default [] messages) ready None None.

(** The [emit] it is constructed with is [ChatStore.emit]: every
    subscriber's [onChatChanged] is called with the event, in the order
    of the subscriber set. *)
Definition emit (event : ChatStoreEvent.t) (w : World.t) : World.t :=
  record (map (λ s, OnChatChanged s event) (Runtime.subscribers (World.rt w)))
    w.

Definition setStatus (status : ChatStatus) (err : option JsError.t)
    (w : World.t) : World.t :=
  let w := assign_status status err w in
  emit (ChatStoreEvent.mk chat_status_changed (idOf w) err) w.

Definition setActiveResponse (activeResponse : option ActiveResponse.t)
    (w : World.t) : World.t :=
  assign_activeResponse activeResponse w.

(** [this.messages = [...messages]] *)
Definition setMessages (messages : list UIMessage.t) (w : World.t) : World.t :=
  let w := assign_messages messages w in
  emit (ChatStoreEvent.mk chat_messages_changed (idOf w) None) w.

(** [this.messages = this.messages.concat(message)] *)
Definition pushMessage (message : UIMessage.t) (w : World.t) : World.t :=
  let w := assign_messages (messagesOf w ++ [message]) w in
  emit (ChatStoreEvent.mk chat_messages_changed (idOf w) None) w.

(** [this.messages = this.messages.slice(0, -1)] *)
Definition popMessage (w : World.t) : World.t :=
  let w := assign_messages (js_slice (messagesOf w) 0 (Some (-1))) w in
  emit (ChatStoreEvent.mk chat_messages_changed (idOf w) None) w.

(** [this.messages = [...this.messages.slice(0, index), message,
    ...this.messages.slice(index + 1)]] *)
Definition replaceMessage (index : Z) (message : UIMessage.t)
    (w : World.t) : World.t :=
  let w :=
    assign_messages
      (js_slice (messagesOf w) 0 (Some index) ++ [message]
         ++ js_slice (messagesOf w) (index + 1) None) w in
  emit (ChatStoreEvent.mk chat_messages_changed (idOf w) None) w.

End ReactStateManager.

Module RSM := ReactStateManager.

(* ===================================================================== *)
(** ** What the client is given or imports *)
(* ===================================================================== *)

(** How the consumption of one response stream ends: [consumeStream]
    returns, or something is thrown out of the [try] block (by the
    transport, by the merger, or as the abort error of a cancelled
    stream).  What is thrown is a value whose properties can be read, or
    it is [null] or [undefined]; reading a property of these raises a
    [TypeError] of the engine, which is carried along. *)
Inductive StreamResult :=
| StreamFinished
| StreamThrew (err : JsError.t)
| StreamThrewNullish (typeError : JsError.t).

(** One response as the client meets it: the drafts the merger publishes,
    one per [write()] call in order (the merger mutates
    [activeResponse.state.message] in place and then calls [write]), and
    the way the stream ends. *)
Module Response.
Record t := mk { publishes : list UIMessage.t; result : StreamResult }.
End Response.

(** The constructor arguments of [ChatClient] ([generateId], [transport],
    [maxSteps]) and the functions it imports whose sources are not at hand.
    [stream n request state onToolCall] is the [n]-th response of the
    transport as folded by [processUIMessageStream]. *)
Module Collaborators.
Record t := mk {
  generateId : nat → string;
  maxSteps : nat;
  createStreamingUIMessageState :
    option UIMessage.t → string → StreamingUIMessageState.t;
  stream : nat → TransportRequest.t → StreamingUIMessageState.t →
           option nat → Response.t;
  getToolInvocations : option UIMessage.t → list ToolInvocation.t;
  extractMaxToolInvocationStep : list ToolInvocation.t → nat;
  shouldResubmitMessages : nat → nat → nat → list UIMessage.t → bool;
  isAssistantMessageWithCompletedToolCalls : option UIMessage.t → bool;
  updateToolCallResult :
    list UIMessage.t → string → string → list UIMessage.t
}.
End Collaborators.

(** A call either returns or throws. *)
Inductive Outcome (A : Type) := Returned (a : A) | Threw (err : JsError.t).
Arguments Returned {A} a.
Arguments Threw {A} err.

(** A call of [triggerRequest] returns ([Settled]) or is rejected with what
    its [catch] block threw ([Rejected]).  Its recursion is bounded by a
    number of request cycles; [OutOfFuel] marks a run cut short by that
    bound. *)
Inductive Completion := Settled | OutOfFuel | Rejected (err : JsError.t).

(** The [try] statement of [triggerRequest] leaves through [return null]
    (abort error), or control goes on to the resubmission check, or the
    [catch] block itself throws and, after the [finally] block, the
    exception leaves [triggerRequest]. *)
Inductive CycleEnd := ReturnedNull | GoesOn | CatchThrew (err : JsError.t).

(** How a call awaited inside a job of the serial job executor ends: like
    any call, or never, when it waits for a job that is queued behind the
    job awaiting it. *)
Inductive InJob := Ended (c : Completion) | NeverSettles.

(* ===================================================================== *)
(** ** [ChatClient] *)
(* ===================================================================== *)

Module ChatClient.
Section WithCollaborators.
Context (C : Collaborators.t).

(** [this.lastMessage]:
    [this.chat.messages[this.chat.messages.length - 1]] *)
Definition lastMessage (w : World.t) : option UIMessage.t :=
  js_index (messagesOf w) (Z.of_nat (length (messagesOf w)) - 1).

(** [this.generateId()] *)
Definition generateId (w : World.t) : string * World.t :=
  (Collaborators.generateId C (Runtime.ids (World.rt w)),
   with_rt (λ r, Runtime.mk (Runtime.subscribers r) (S (Runtime.ids r))
                   (Runtime.controllers r) (Runtime.requests r)
                   (Runtime.log r)) w).

(** [new AbortController()] *)
Definition newAbortController (w : World.t) : nat * World.t :=
  (Runtime.controllers (World.rt w),
   with_rt (λ r, Runtime.mk (Runtime.subscribers r) (Runtime.ids r)
                   (S (Runtime.controllers r)) (Runtime.requests r)
                   (Runtime.log r)) w).

(** [await this.transport.submitMessages({...})], with the merger that
    folds the stream it returns. *)
Definition submitMessages (request : TransportRequest.t)
    (state : StreamingUIMessageState.t) (onToolCall : option nat)
    (w : World.t) : Response.t * World.t :=
  (Collaborators.stream C (Runtime.requests (World.rt w)) request state
     onToolCall,
   with_rt (λ r, Runtime.mk (Runtime.subscribers r) (Runtime.ids r)
                   (Runtime.controllers r) (S (Runtime.requests r))
                   (Runtime.log r ++ [SubmitMessages request])) w).

(** The [write] closure of [runUpdateMessageJob] (lines 310-326). *)
Definition write (activeResponse : ActiveResponse.t) (w : World.t) : World.t :=
  let w := RSM.setStatus streaming None w in
  let draft :=
    StreamingUIMessageState.message (ActiveResponse.state activeResponse) in
  let replaceLastMessage :=
    match lastMessage w with
    | Some m => String.eqb (UIMessage.id draft) (UIMessage.id m)
    | None => false
    end in
  if replaceLastMessage
  then RSM.replaceMessage (Z.of_nat (length (messagesOf w)) - 1) draft w
  else RSM.pushMessage draft w.

(** One job of the merger: the draft held by the active response is
    mutated in place (the chat state refers to the same object), then
    [write] publishes it. *)
Definition runUpdateMessageJob (activeResponse : ActiveResponse.t)
    (draft : UIMessage.t) (w : World.t) : ActiveResponse.t * World.t :=
  let activeResponse :=
    ActiveResponse.mk (StreamingUIMessageState.mk draft)
      (ActiveResponse.abortController activeResponse) in
  let w :=
    match activeResponseOf w with
    | Some _ => assign_activeResponse (Some activeResponse) w
    | None => w
    end in
  (activeResponse, write activeResponse w).

(** [await consumeStream(...)]: the jobs run one after the other. *)
Fixpoint consumeStream (publishes : list UIMessage.t)
    (activeResponse : ActiveResponse.t) (w : World.t)
    : ActiveResponse.t * World.t :=
  match publishes with
  | [] => (activeResponse, w)
  | draft :: rest =>
      let '(activeResponse, w) := runUpdateMessageJob activeResponse draft w in
      consumeStream rest activeResponse w
  end.

(** The [try]/[catch]/[finally] statement of [triggerRequest]
    (lines 277-360). *)
Definition requestCycle (requestType : RequestType) (opts : CallOptions.t)
    (w : World.t) : World.t * CycleEnd :=
  let last := lastMessage w in
  let '(newMessageId, w) := generateId w in
  let '(controller, w) := newAbortController w in
  let activeResponse :=
    ActiveResponse.mk
      (Collaborators.createStreamingUIMessageState C last newMessageId)
      (Some controller) in
  let w := RSM.setActiveResponse (Some activeResponse) w in
  let request :=
    TransportRequest.mk (idOf w) (messagesOf w)
      (CallOptions.body opts) (CallOptions.headers opts)
      (ActiveResponse.abortController activeResponse) requestType in
  let '(response, w) :=
    submitMessages request (ActiveResponse.state activeResponse)
      (CallOptions.onToolCall opts) w in
  let '(activeResponse, w) :=
    consumeStream (Response.publishes response) activeResponse w in
  match Response.result response with
  | StreamFinished =>
      let w :=
        match CallOptions.onFinish opts with
        | Some cb =>
            record [OnFinish cb (StreamingUIMessageState.message
                                   (ActiveResponse.state activeResponse))] w
        | None => w
        end in
      let w := RSM.setStatus ready None w in
      (RSM.setActiveResponse None w, GoesOn)
  | StreamThrew err =>
      if String.eqb (JsError.name err) "AbortError"%string
      then
        let w := RSM.setStatus ready None w in
        (RSM.setActiveResponse None w, ReturnedNull)
      else
        let w :=
          match CallOptions.onError opts with
          | Some cb =>
              if JsError.instanceofError err then record [OnError cb err] w
              else w
          | None => w
          end in
        let w := RSM.setStatus error (Some err) w in
        (RSM.setActiveResponse None w, GoesOn)
  | StreamThrewNullish typeError =>
      (RSM.setActiveResponse None w, CatchThrew typeError)
  end.

(** [triggerRequest] (lines 257-381). *)
Fixpoint triggerRequest (fuel : nat) (requestType : RequestType)
    (opts : CallOptions.t) (w : World.t) : World.t * Completion :=
  match fuel with
  | O => (w, OutOfFuel)
  | S fuel =>
      let w := RSM.setStatus submitted None w in
      let messageCount := length (messagesOf w) in
      let maxStep :=
        Collaborators.extractMaxToolInvocationStep C
          (Collaborators.getToolInvocations C (lastMessage w)) in
      match requestCycle requestType opts w with
      | (w, ReturnedNull) => (w, Settled)
      | (w, GoesOn) =>
          if Collaborators.shouldResubmitMessages C maxStep messageCount
               (Collaborators.maxSteps C) (messagesOf w)
          then triggerRequest fuel requestType opts w
          else (w, Settled)
      | (w, CatchThrew err) => (w, Rejected err)
      end
  end.

(** [await consumeStream(...)] when [triggerRequest] is awaited inside a job
    of the serial job executor (the job of [addToolResult], lines 216 and
    240).  Every job of the merger goes to the same executor
    ([runUpdateMessageJob], line 307), which runs it after the job that
    awaits the stream: the first job of the merger never starts, nothing
    is published and the stream is never consumed ([None]).  A response
    for which the merger has no job (there is one job for each draft, as
    in [consumeStream]) is consumed as it is outside a job. *)
Definition consumeStreamInJob (publishes : list UIMessage.t)
    (activeResponse : ActiveResponse.t) (w : World.t)
    : option (ActiveResponse.t * World.t) :=
  match publishes with
  | [] => Some (activeResponse, w)
  | _ :: _ => None
  end.

(** The [try]/[catch]/[finally] statement of [triggerRequest]
    (lines 277-360) in such a call; [None] when it never ends. *)
Definition requestCycleInJob (requestType : RequestType) (opts : CallOptions.t)
    (w : World.t) : World.t * option CycleEnd :=
  let last := lastMessage w in
  let '(newMessageId, w) := generateId w in
  let '(controller, w) := newAbortController w in
  let activeResponse :=
    ActiveResponse.mk
      (Collaborators.createStreamingUIMessageState C last newMessageId)
      (Some controller) in
  let w := RSM.setActiveResponse (Some activeResponse) w in
  let request :=
    TransportRequest.mk (idOf w) (messagesOf w)
      (CallOptions.body opts) (CallOptions.headers opts)
      (ActiveResponse.abortController activeResponse) requestType in
  let '(response, w) :=
    submitMessages request (ActiveResponse.state activeResponse)
      (CallOptions.onToolCall opts) w in
  match consumeStreamInJob (Response.publishes response) activeResponse w with
  | None => (w, None)
  | Some (activeResponse, w) =>
      match Response.result response with
      | StreamFinished =>
          let w :=
            match CallOptions.onFinish opts with
            | Some cb =>
                record [OnFinish cb (StreamingUIMessageState.message
                                       (ActiveResponse.state activeResponse))]
                  w
            | None => w
            end in
          let w := RSM.setStatus ready None w in
          (RSM.setActiveResponse None w, Some GoesOn)
      | StreamThrew err =>
          if String.eqb (JsError.name err) "AbortError"%string
          then
            let w := RSM.setStatus ready None w in
            (RSM.setActiveResponse None w, Some ReturnedNull)
          else
            let w :=
              match CallOptions.onError opts with
              | Some cb =>
                  if JsError.instanceofError err then record [OnError cb err] w
                  else w
              | None => w
              end in
            let w := RSM.setStatus error (Some err) w in
            (RSM.setActiveResponse None w, Some GoesOn)
      | StreamThrewNullish typeError =>
          (RSM.setActiveResponse None w, Some (CatchThrew typeError))
      end
  end.

(** [triggerRequest] (lines 257-381) awaited inside a job of the serial job
    executor. *)
Fixpoint triggerRequestInJob (fuel : nat) (requestType : RequestType)
    (opts : CallOptions.t) (w : World.t) : World.t * InJob :=
  match fuel with
  | O => (w, Ended OutOfFuel)
  | S fuel =>
      let w := RSM.setStatus submitted None w in
      let messageCount := length (messagesOf w) in
      let maxStep :=
        Collaborators.extractMaxToolInvocationStep C
          (Collaborators.getToolInvocations C (lastMessage w)) in
      match requestCycleInJob requestType opts w with
      | (w, None) => (w, NeverSettles)
      | (w, Some ReturnedNull) => (w, Ended Settled)
      | (w, Some GoesOn) =>
          if Collaborators.shouldResubmitMessages C maxStep messageCount
               (Collaborators.maxSteps C) (messagesOf w)
          then triggerRequestInJob fuel requestType opts w
          else (w, Ended Settled)
      | (w, Some (CatchThrew err)) => (w, Ended (Rejected err))
      end
  end.

(** [removeAssistantResponse] (lines 119-129). *)
Definition removeAssistantResponse (w : World.t) : World.t * Outcome unit :=
  match lastMessage w with
  | None =>
      (w, Threw (JsError.mk "Error"%string
                   "Cannot remove assistant response from empty chat"%string
                   true))
  | Some m =>
      if decide (UIMessage.role m ≠ assistant)
      then (w, Threw (JsError.mk "Error"%string
                        "Last message is not an assistant message"%string
                        true))
      else (RSM.popMessage w, Returned tt)
  end.

(** [submitMessage] (lines 131-159). *)
Definition submitMessage (fuel : nat) (message : CreateUIMessage.t)
    (opts : CallOptions.t) (w : World.t) : World.t * Completion :=
  let '(id, w) :=
    match CreateUIMessage.id message with
    | Some id => (id, w)
    | None => generateId w
    end in
  let w :=
    RSM.pushMessage (UIMessage.mk id (CreateUIMessage.role message)
                       (CreateUIMessage.parts message)) w in
  triggerRequest fuel generate opts w.

(** [resubmitLastUserMessage] (lines 161-187). *)
Definition resubmitLastUserMessage (fuel : nat) (opts : CallOptions.t)
    (w : World.t) : World.t * Completion :=
  match lastMessage w with
  | None => (w, Settled)
  | Some m =>
      let w :=
        if decide (UIMessage.role m = assistant) then RSM.popMessage w
        else w in
      triggerRequest fuel generate opts w
  end.

(** [resumeStream] (lines 189-207). *)
Definition resumeStream (fuel : nat) (opts : CallOptions.t) (w : World.t)
    : World.t * Completion :=
  triggerRequest fuel resume opts w.

(** [addToolResult] (lines 209-245): the job handed to the job executor,
    run when its turn comes.  [updateToolCallResult] mutates the message
    array of the chat in place; [setMessages] then republishes it.  The
    request it triggers is awaited inside the job. *)
Definition addToolResult (fuel : nat) (toolCallId : string) (result : string)
    (w : World.t) : World.t * InJob :=
  let w :=
    assign_messages
      (Collaborators.updateToolCallResult C (messagesOf w) toolCallId result)
      w in
  let w := RSM.setMessages (messagesOf w) w in
  if decide (statusOf w = submitted ∨ statusOf w = streaming)
  then (w, Ended Settled)
  else
    let lastMessage :=
      js_index (messagesOf w) (Z.of_nat (length (messagesOf w)) - 1) in
    if Collaborators.isAssistantMessageWithCompletedToolCalls C lastMessage
    then triggerRequestInJob fuel generate CallOptions.none w
    else (w, Ended Settled).

(** [stopStream] (lines 247-255). *)
Definition stopStream (w : World.t) : World.t :=
  if decide (statusOf w ≠ streaming ∧ statusOf w ≠ submitted)
  then w
  else
    match activeResponseOf w with
    | Some activeResponse =>
        match ActiveResponse.abortController activeResponse with
        | Some controller =>
            let w := record [Abort controller] w in
            assign_activeResponse
              (Some (ActiveResponse.mk (ActiveResponse.state activeResponse)
                       None)) w
        | None => w
        end
    | None => w
    end.

End WithCollaborators.
End ChatClient.

(* ===================================================================== *)
(** ** [ChatStore] *)
(* ===================================================================== *)

Module ChatStore.

(** The [chats] map and what the store shares among its chats.  A chat's
    [ChatClient] has no state of its own beyond the [ChatState] it was
    built on, so the map holds the states. *)
Record t := mk { chats : gmap string ChatState.t; rt : Runtime.t }.

Section WithCollaborators.
Context (C : Collaborators.t).

(** [newChatClient(id, messages)] *)
Definition newChatClient (id : string) (messages : list UIMessage.t)
    : ChatState.t :=
  ReactStateManager.new id (Some messages).

(** The constructor, from the initial [chats] object. *)
Definition new (chats : gmap string (list UIMessage.t)) : t :=
  mk (map_imap (λ id messages, Some (newChatClient id messages)) chats)
     Runtime.init.

Definition hasChat (id : string) (st : t) : bool :=
  bool_decide (is_Some (chats st !! id)).

Definition addChat (id : string) (messages : list UIMessage.t) (st : t) : t :=
  mk (<[id := newChatClient id messages]> (chats st)) (rt st).

Definition chatCount (st : t) : nat := size (chats st).

(** [getClient(id)] (lines 305-310) *)
Definition getClient (id : string) (st : t) : ChatState.t * t :=
  match chats st !! id with
  | Some c => (c, st)
  | None =>
      let c := newChatClient id [] in
      (c, mk (<[id := c]> (chats st)) (rt st))
  end.

(** Running a method of the chat's state or client: the chat object is
    fetched with [getClient], the method works on it in place. *)
Definition onClient {A} (id : string) (method : World.t → World.t * A)
    (st : t) : t * A :=
  let '(c, st) := getClient id st in
  let '(w, a) := method (World.mk c (rt st)) in
  (mk (<[id := World.chat w]> (chats st)) (World.rt w), a).

Definition getStatus (id : string) (st : t) : t * ChatStatus :=
  onClient id (λ w, (w, statusOf w)) st.

(** [setStatus({id, status, error})] (lines 223-235) *)
Definition setStatus (id : string) (status : ChatStatus)
    (err : option JsError.t) (st : t) : t :=
  fst (onClient id
         (λ w, if decide (statusOf w = status) then (w, tt)
               else (ReactStateManager.setStatus status err w, tt)) st).

Definition getError (id : string) (st : t) : t * option JsError.t :=
  onClient id (λ w, (w, errorOf w)) st.

Definition getMessages (id : string) (st : t) : t * list UIMessage.t :=
  onClient id (λ w, (w, messagesOf w)) st.

Definition getLastMessage (id : string) (st : t) : t * option UIMessage.t :=
  onClient id
    (λ w, (w, js_index (messagesOf w)
                (Z.of_nat (length (messagesOf w)) - 1))) st.

(** [subscribe(subscriber)]: added to the subscriber set. *)
Definition subscribe (subscriber : nat) (st : t) : t :=
  let r := rt st in
  mk (chats st)
     (Runtime.mk
        (if decide (subscriber ∈ Runtime.subscribers r)
         then Runtime.subscribers r
         else Runtime.subscribers r ++ [subscriber])
        (Runtime.ids r) (Runtime.controllers r) (Runtime.requests r)
        (Runtime.log r)).

(** The function [subscribe] returns: [this.subscribers.delete(subscriber)] *)
Definition unsubscribe (subscriber : nat) (st : t) : t :=
  let r := rt st in
  mk (chats st)
     (Runtime.mk
        (filter (λ s, s ≠ subscriber) (Runtime.subscribers r))
        (Runtime.ids r) (Runtime.controllers r) (Runtime.requests r)
        (Runtime.log r)).

Definition setMessages (id : string) (messages : list UIMessage.t) (st : t)
    : t :=
  fst (onClient id (λ w, (ReactStateManager.setMessages messages w, tt)) st).

Definition removeAssistantResponse (id : string) (st : t) : t * Outcome unit :=
  onClient id ChatClient.removeAssistantResponse st.

Definition submitMessage (id : string) (fuel : nat)
    (message : CreateUIMessage.t) (opts : CallOptions.t) (st : t)
    : t * Completion :=
  onClient id (ChatClient.submitMessage C fuel message opts) st.

Definition resubmitLastUserMessage (id : string) (fuel : nat)
    (opts : CallOptions.t) (st : t) : t * Completion :=
  onClient id (ChatClient.resubmitLastUserMessage C fuel opts) st.

Definition resumeStream (id : string) (fuel : nat) (opts : CallOptions.t)
    (st : t) : t * Completion :=
  onClient id (ChatClient.resumeStream C fuel opts) st.

Definition addToolResult (id : string) (fuel : nat) (toolCallId : string)
    (result : string) (st : t) : t * InJob :=
  onClient id (ChatClient.addToolResult C fuel toolCallId result) st.

Definition stopStream (id : string) (st : t) : t :=
  fst (onClient id (λ w, (ChatClient.stopStream w, tt)) st).

End WithCollaborators.
End ChatStore.

(* ===================================================================== *)
(** ** The imported functions, as the specification describes them *)
(* ===================================================================== *)

(** Modelled from the spec: the tool invocations of a message are those of
    its tool-invocation parts, in order ([get-tool-invocations] is not part
    of the sources at hand); no message, no invocations. *)
Definition getToolInvocations (message : option UIMessage.t)
    : list ToolInvocation.t :=
  match message with
  | None => []
  | Some m =>
      omap (λ p, match p with
                 | ToolInvocationPart ti => Some ti
                 | _ => None
                 end) (UIMessage.parts m)
  end.

(** Modelled from the spec: "the max tool-invocation step already present
    in the last message" ([extract-max-tool-invocation-step] is not part of
    the sources at hand). *)
Definition extractMaxToolInvocationStep (toolInvocations : list ToolInvocation.t)
    : nat :=
  foldr (λ ti acc, Nat.max (ToolInvocation.step ti) acc) 0%nat toolInvocations.

(** Modelled from the spec: a tool invocation "has reached a terminal state
    (result or error)". *)
Definition isTerminal (s : ToolInvocationState) : bool :=
  match s with
  | output_available | output_error => true
  | input_streaming | input_available => false
  end.

(** Modelled from the spec: the Resubmission Policy
    ([should-resubmit-messages] is not part of the sources at hand).  Of its
    four inputs the spec's conditions use three: the step count before the
    call, the configured maximum and the resulting message list; the message
    count before the call is an input that no condition mentions. *)
Definition shouldResubmitMessages
    (originalMaxToolInvocationStep originalMessageCount maxSteps : nat)
    (messages : list UIMessage.t) : bool :=
  match last messages with
  | None => false
  | Some lastMessage =>
      let toolInvocations := getToolInvocations (Some lastMessage) in
      let stepCount := extractMaxToolInvocationStep toolInvocations in
      bool_decide (UIMessage.role lastMessage = assistant)
      && forallb (λ ti, isTerminal (ToolInvocation.state ti)) toolInvocations
      && (originalMaxToolInvocationStep <? stepCount)%nat
      && (stepCount <? maxSteps)%nat
  end.

(** Modelled from the spec: "an assistant message whose every tool
    invocation has a result" (defined next to the policy, in the same absent
    file). *)
Definition isAssistantMessageWithCompletedToolCalls
    (message : option UIMessage.t) : bool :=
  match message with
  | None => false
  | Some m =>
      bool_decide (UIMessage.role m = assistant)
      && forallb (λ ti, bool_decide (is_Some (ToolInvocation.result ti)))
           (getToolInvocations (Some m))
  end.

(** Modelled from the spec: "patches the matching tool-invocation part's
    result into the message list" ([update-tool-call-result] is not part of
    the sources at hand): the part whose [toolCallId] matches gets the result
    and the terminal state that goes with it. *)
Definition patchPart (toolCallId toolResult : string) (p : Part) : Part :=
  match p with
  | ToolInvocationPart ti =>
      if String.eqb (ToolInvocation.toolCallId ti) toolCallId
      then ToolInvocationPart
             (ToolInvocation.mk (ToolInvocation.toolCallId ti)
                (ToolInvocation.toolName ti) (ToolInvocation.args ti)
                output_available (Some toolResult) (ToolInvocation.step ti))
      else p
  | _ => p
  end.

(** Modelled from the spec: [updateToolCallResult] patches the matching
    part wherever it sits in the message list and leaves the rest alone. *)
Definition updateToolCallResult (messages : list UIMessage.t)
    (toolCallId toolResult : string) : list UIMessage.t :=
  map (λ m, UIMessage.mk (UIMessage.id m) (UIMessage.role m)
              (map (patchPart toolCallId toolResult) (UIMessage.parts m)))
      messages.

(** Modelled from the spec: the accumulator of a new request is "seeded with
    a new id, or with the existing last message's id/content if this
    response is expected to replace it" ([process-ui-message-stream] is not
    part of the sources at hand).  The function is called with the last
    message and the new id only; the response is taken to replace the last
    message when that is an assistant message. *)
Definition createStreamingUIMessageState (lastMessage : option UIMessage.t)
    (newMessageId : string) : StreamingUIMessageState.t :=
  match lastMessage with
  | Some m =>
      if decide (UIMessage.role m = assistant)
      then StreamingUIMessageState.mk m
      else StreamingUIMessageState.mk (UIMessage.mk newMessageId assistant [])
  | None => StreamingUIMessageState.mk (UIMessage.mk newMessageId assistant [])
  end.

(** The collaborators of the specification around a given id generator,
    step limit and transport. *)
Definition specCollaborators (generateId : nat → string) (maxSteps : nat)
    (stream : nat → TransportRequest.t → StreamingUIMessageState.t →
              option nat → Response.t) : Collaborators.t :=
  Collaborators.mk generateId maxSteps createStreamingUIMessageState stream
    getToolInvocations extractMaxToolInvocationStep shouldResubmitMessages
    isAssistantMessageWithCompletedToolCalls updateToolCallResult.


(* ===================================================================== *)
(** ** Reading the log *)
(* ===================================================================== *)

(** The calls to the transport recorded in a log. *)
Definition requestsIn (log : list Effect) : list TransportRequest.t :=
  omap (λ e, match e with SubmitMessages r => Some r | _ => None end) log.

(** An effect that hands an error to the outside: a call of [onError], or a
    notification with an error attached. *)
Definition surfacesError (e : Effect) : bool :=
  match e with
  | OnError _ _ => true
  | OnChatChanged _ event => bool_decide (is_Some (ChatStoreEvent.error event))
  | _ => false
  end.

(** A notification of the subscribers that carries no error. *)
Definition isPlainNotification (e : Effect) : bool :=
  match e with
  | OnChatChanged _ event => bool_decide (ChatStoreEvent.error event = None)
  | _ => false
  end.

(** [w'] comes from [w] by steps that, outside the chat state, only notify
    the subscribers, without an error: nothing is sent, aborted or called
    back, and no counter moves. *)
Definition quiet (w w' : World.t) : Prop :=
  idOf w' = idOf w
  ∧ Runtime.subscribers (World.rt w') = Runtime.subscribers (World.rt w)
  ∧ Runtime.ids (World.rt w') = Runtime.ids (World.rt w)
  ∧ Runtime.controllers (World.rt w') = Runtime.controllers (World.rt w)
  ∧ Runtime.requests (World.rt w') = Runtime.requests (World.rt w)
  ∧ ∃ es, logOf w' = logOf w ++ es
          ∧ Forall (λ e, isPlainNotification e = true) es.

(** The request that [triggerRequest] sends when it is called in [w], and
    the response it then meets. *)
Definition requestFrom (requestType : RequestType) (opts : CallOptions.t)
    (w : World.t) : TransportRequest.t :=
  TransportRequest.mk (idOf w) (messagesOf w) (CallOptions.body opts)
    (CallOptions.headers opts) (Some (Runtime.controllers (World.rt w)))
    requestType.

Definition responseTo (C : Collaborators.t) (requestType : RequestType)
    (opts : CallOptions.t) (w : World.t) : Response.t :=
  Collaborators.stream C (Runtime.requests (World.rt w))
    (requestFrom requestType opts w)
    (Collaborators.createStreamingUIMessageState C (ChatClient.lastMessage w)
       (Collaborators.generateId C (Runtime.ids (World.rt w))))
    (CallOptions.onToolCall opts).

(** The stages of one request cycle started in [w]: the active response
    it creates, the world once the transport has been called, and both once
    the stream has been consumed. *)
Definition openedResponse (C : Collaborators.t) (w : World.t)
    : ActiveResponse.t :=
  ActiveResponse.mk
    (Collaborators.createStreamingUIMessageState C (ChatClient.lastMessage w)
       (Collaborators.generateId C (Runtime.ids (World.rt w))))
    (Some (Runtime.controllers (World.rt w))).

Definition afterSubmit (C : Collaborators.t) (requestType : RequestType)
    (opts : CallOptions.t) (w : World.t) : World.t :=
  let '(_, w1) := ChatClient.generateId C w in
  let '(_, w2) := ChatClient.newAbortController w1 in
  let w3 := RSM.setActiveResponse (Some (openedResponse C w)) w2 in
  snd (ChatClient.submitMessages C (requestFrom requestType opts w)
         (ActiveResponse.state (openedResponse C w))
         (CallOptions.onToolCall opts) w3).

Definition afterStream (C : Collaborators.t) (requestType : RequestType)
    (opts : CallOptions.t) (w : World.t) : ActiveResponse.t * World.t :=
  ChatClient.consumeStream (Response.publishes (responseTo C requestType opts w))
    (openedResponse C w) (afterSubmit C requestType opts w).

(** The step count and the message count that [triggerRequest] records
    before the request, as the policy receives them afterwards. *)
Definition policyAfter (C : Collaborators.t) (before after : World.t) : bool :=
  Collaborators.shouldResubmitMessages C
    (Collaborators.extractMaxToolInvocationStep C
       (Collaborators.getToolInvocations C (ChatClient.lastMessage before)))
    (length (messagesOf before)) (Collaborators.maxSteps C) (messagesOf after).

(** The accessors and operations of [ChatStore] that take a chat id, and
    the store each of them leaves behind. *)
Inductive StoreCall :=
| GetStatus
| GetMessages
| GetError
| GetLastMessage
| SetStatus (status : ChatStatus) (err : option JsError.t)
| SetMessages (messages : list UIMessage.t)
| SubmitMessage (fuel : nat) (message : CreateUIMessage.t) (opts : CallOptions.t)
| ResubmitLastUserMessage (fuel : nat) (opts : CallOptions.t)
| ResumeStream (fuel : nat) (opts : CallOptions.t)
| AddToolResult (fuel : nat) (toolCallId result : string)
| StopStream
| RemoveAssistantResponse.

Definition storeAfter (C : Collaborators.t) (call : StoreCall) (id : string)
    (st : ChatStore.t) : ChatStore.t :=
  match call with
  | GetStatus => fst (ChatStore.getStatus id st)
  | GetMessages => fst (ChatStore.getMessages id st)
  | GetError => fst (ChatStore.getError id st)
  | GetLastMessage => fst (ChatStore.getLastMessage id st)
  | SetStatus status err => ChatStore.setStatus id status err st
  | SetMessages messages => ChatStore.setMessages id messages st
  | SubmitMessage fuel message opts =>
      fst (ChatStore.submitMessage C id fuel message opts st)
  | ResubmitLastUserMessage fuel opts =>
      fst (ChatStore.resubmitLastUserMessage C id fuel opts st)
  | ResumeStream fuel opts => fst (ChatStore.resumeStream C id fuel opts st)
  | AddToolResult fuel toolCallId result =>
      fst (ChatStore.addToolResult C id fuel toolCallId result st)
  | StopStream => ChatStore.stopStream id st
  | RemoveAssistantResponse => fst (ChatStore.removeAssistantResponse id st)
  end.

(* ===================================================================== *)
(** ** Sample chats *)
(* ===================================================================== *)

Module Sample.
Definition hi : UIMessage.t :=
  UIMessage.mk "u1"%string user [TextPart "hi"%string].

Definition weatherCall (state : ToolInvocationState) (result : option string)
    : ToolInvocation.t :=
  ToolInvocation.mk "call-1"%string "weather"%string "{}"%string state result
    1%nat.

(** An assistant message still waiting for the result of its tool call. *)
Definition asking : UIMessage.t :=
  UIMessage.mk "a1"%string assistant
    [ToolInvocationPart (weatherCall input_available None)].

(** The same message once the tool call has its result. *)
Definition answered : UIMessage.t :=
  UIMessage.mk "a1"%string assistant
    [ToolInvocationPart (weatherCall output_available (Some "sunny"%string))].

Definition partial : UIMessage.t :=
  UIMessage.mk "a2"%string assistant [TextPart "Par"%string].

Definition boom : JsError.t :=
  JsError.mk "Error"%string "connection reset"%string true.

Definition aborted : JsError.t :=
  JsError.mk "AbortError"%string "The operation was aborted."%string true.

(** What the engine raises when a property of [null] is read. *)
Definition typeError : JsError.t :=
  JsError.mk "TypeError"%string
    "Cannot read properties of null (reading 'name')"%string true.

(** A chat with one subscriber listening. *)
Definition world (messages : list UIMessage.t) (status : ChatStatus)
    (activeResponse : option ActiveResponse.t) : World.t :=
  World.mk (ChatState.mk "chat"%string messages status None activeResponse)
    (Runtime.mk [7%nat] 0 0 0 []).

Definition ids (n : nat) : string := String.append "msg-" (pretty n).

Definition options : CallOptions.t :=
  CallOptions.mk None None (Some 1%nat) None (Some 2%nat).

(** What the merger publishes: the draft it was started with, grown by
    some parts. *)
Definition grown (state : StreamingUIMessageState.t) (parts : list Part)
    : UIMessage.t :=
  let draft := StreamingUIMessageState.message state in
  UIMessage.mk (UIMessage.id draft) (UIMessage.role draft)
    (UIMessage.parts draft ++ parts).

(** A transport whose stream is cancelled after a first piece of text. *)
Definition cancelled : Collaborators.t :=
  specCollaborators ids 2
    (λ _ _ state _,
       Response.mk [grown state [TextPart "Par"%string]] (StreamThrew aborted)).

(** A transport whose first stream delivers a finished tool call and then
    breaks, and whose later streams finish at once. *)
Definition flaky : Collaborators.t :=
  specCollaborators ids 5
    (λ n _ state _,
       match n with
       | O => Response.mk
                [grown state
                   [ToolInvocationPart
                      (weatherCall output_available (Some "sunny"%string))]]
                (StreamThrew boom)
       | S _ => Response.mk [] StreamFinished
       end).


(** A transport whose streams finish at once. *)
Definition idle : Collaborators.t :=
  specCollaborators ids 5 (λ _ _ _ _, Response.mk [] StreamFinished).

(** A transport that answers "Hello" in two pieces. *)
Definition hello : Collaborators.t :=
  specCollaborators ids 1
    (λ _ _ state _,
       Response.mk [grown state [TextPart "Hel"%string];
                    grown state [TextPart "Hello"%string]] StreamFinished).

(** A transport whose stream publishes the start of an answer and then
    rejects with [null]. *)
Definition thrownNull : Collaborators.t :=
  specCollaborators ids 5
    (λ _ _ state _,
       Response.mk [grown state [TextPart "Hel"%string]]
         (StreamThrewNullish typeError)).

(** A store holding one chat, in status [error], with one subscriber. *)
Definition store : ChatStore.t :=
  ChatStore.mk
    {[ "chat"%string := ChatState.mk "chat"%string [hi] error (Some boom) None ]}
    (Runtime.mk [7%nat] 0 0 0 []).
End Sample.

(* ===================================================================== *)
(** ** More ways to read the log and the message list *)
(* ===================================================================== *)

(** The calls of [onError] and of [onFinish] recorded in a log. *)
Definition onErrorCalls (log : list Effect) : list (nat * JsError.t) :=
  omap (λ e, match e with OnError cb err => Some (cb, err) | _ => None end) log.

Definition onFinishCalls (log : list Effect) : list (nat * UIMessage.t) :=
  omap (λ e, match e with OnFinish cb m => Some (cb, m) | _ => None end) log.

(** The notifications one subscriber received. *)
Definition notificationsOf (subscriber : nat) (log : list Effect)
    : list ChatStoreEvent.t :=
  omap (λ e, match e with
             | OnChatChanged s event =>
                 if decide (s = subscriber) then Some event else None
             | _ => None
             end) log.

(** [after] keeps [before]: it is at least as long, and every message of
    [before] except its last one is still at its place. *)
Definition keeps (before after : list UIMessage.t) : Prop :=
  (length before ≤ length after)%nat
  ∧ ∀ i : nat, (i + 1 < length before)%nat → after !! i = before !! i.

(** The draft an active response holds once the given drafts have been
    published: the last of them, or the one it started with. *)
Definition finalDraft (start : StreamingUIMessageState.t)
    (publishes : list UIMessage.t) : UIMessage.t :=
  default (StreamingUIMessageState.message start) (last publishes).

(** A chat at rest: no active response, and either status [ready] without
    an error or status [error] with one. *)
Definition atRest (w : World.t) : Prop :=
  activeResponseOf w = None
  ∧ ((statusOf w = ready ∧ errorOf w = None)
     ∨ ∃ err, statusOf w = error ∧ errorOf w = Some err).

(** A chat as a rejected call leaves it: no active response, and yet
    status [submitted] or [streaming], with no error stored. *)
Definition leftBusy (w : World.t) : Prop :=
  activeResponseOf w = None
  ∧ (statusOf w = submitted ∨ statusOf w = streaming)
  ∧ errorOf w = None.

(** Every chat of the store is filed under its own id. *)
Definition keyed (st : ChatStore.t) : Prop :=
  ∀ id c, ChatStore.chats st !! id = Some c → ChatState.id c = id.

(* ===================================================================== *)
(** ** The Svelte chat state ([SvelteChatState]) *)
(* ===================================================================== *)

(** [arr[i] = x] on a JavaScript array.  An element of the array is a value
    or a hole (an index below the length that was never written, read as
    [undefined]).  Inside the array the element is replaced; at or beyond
    the end the array grows to length [i + 1], with holes up to the new
    element; a negative [i] is no array index and leaves the elements
    alone. *)
Definition js_array_set {A} (l : list (option A)) (i : Z) (x : A)
    : list (option A) :=
  if i <? 0 then l
  else if i <? Z.of_nat (length l) then <[Z.to_nat i := Some x]> l
  else l ++ replicate (Z.to_nat i - length l) None ++ [Some x].

(** [SvelteChatState] of [packages/svelte/src/chat.svelte.ts]: the same
    fields as in the React store, assigned and mutated in place, with
    nobody to notify. *)
Module SvelteChatState.
Record t := mk {
  id : string;
  messages : list (option UIMessage.t);
  status : ChatStatus;
  error : option JsError.t;
  activeResponse : option ActiveResponse.t
}.

(** [new SvelteChatState(id, messages)] *)
Definition new (id : string) (messages : option (list UIMessage.t)) : t :=
  mk id (Some <$> default [] messages) ready None None.

Definition setStatus (status : ChatStatus) (err : option JsError.t) (c : t) : t :=
  mk (id c) (messages c) status err (activeResponse c).

Definition setActiveResponse (activeResponse : option ActiveResponse.t)
    (c : t) : t :=
  mk (id c) (messages c) (status c) (error c) activeResponse.

(** [this.messages = messages] *)
Definition setMessages (messages : list UIMessage.t) (c : t) : t :=
  mk (id c) (Some <$> messages) (status c) (error c) (activeResponse c).

(** [this.messages.push(message)] *)
Definition pushMessage (message : UIMessage.t) (c : t) : t :=
  mk (id c) (messages c ++ [Some message]) (status c) (error c)
    (activeResponse c).

(** [this.messages.pop()] *)
Definition popMessage (c : t) : t :=
  mk (id c) (take (length (messages c) - 1) (messages c)) (status c) (error c)
    (activeResponse c).

(** [this.messages[index] = message] *)
Definition replaceMessage (index : Z) (message : UIMessage.t) (c : t) : t :=
  mk (id c) (js_array_set (messages c) index message) (status c) (error c)
    (activeResponse c).
End SvelteChatState.

(** A Svelte chat state and a React chat state that hold the same chat. *)
Definition sameChat (c : ChatState.t) (s : SvelteChatState.t) : Prop :=
  SvelteChatState.id s = ChatState.id c
  ∧ SvelteChatState.messages s = Some <$> ChatState.messages c
  ∧ SvelteChatState.status s = ChatState.status c
  ∧ SvelteChatState.error s = ChatState.error c
  ∧ SvelteChatState.activeResponse s = ChatState.activeResponse c.

(* ===================================================================== *)
(** ** The Svelte [Chat] class *)
(* ===================================================================== *)

(** [Chat] of [packages/svelte/src/chat.svelte.ts]: the text [input], the
    callbacks of its options and the chat its client works on.  The chat
    behind the client is the one modelled above, here with no subscriber to
    notify; on every call the client makes it changes messages, status
    and error as [SvelteChatState] does. *)
Module SvelteChat.
Record t := mk {
  input : string;
  onError : option nat;
  onToolCall : option nat;
  onFinish : option nat;
  world : World.t
}.

Definition with_world (w : World.t) (chat : t) : t :=
  mk (input chat) (onError chat) (onToolCall chat) (onFinish chat) w.

Section WithCollaborators.
Context (C : Collaborators.t).

(** The options [append] and [reload] hand to the client. *)
Definition callOptions (headers : option (list (string * string)))
    (body : option string) (chat : t) : CallOptions.t :=
  CallOptions.mk headers body (onError chat) (onToolCall chat) (onFinish chat).

Definition append (fuel : nat) (message : CreateUIMessage.t)
    (headers : option (list (string * string))) (body : option string)
    (chat : t) : t * Completion :=
  let '(w, done) :=
    ChatClient.submitMessage C fuel message (callOptions headers body chat)
      (world chat) in
  (with_world w chat, done).

Definition reload (fuel : nat) (headers : option (list (string * string)))
    (body : option string) (chat : t) : t * Completion :=
  let '(w, done) :=
    ChatClient.resubmitLastUserMessage C fuel (callOptions headers body chat)
      (world chat) in
  (with_world w chat, done).

Definition stop (chat : t) : t :=
  with_world (ChatClient.stopStream (world chat)) chat.

(** [handleSubmit(event, options)], given the file parts the [files] of the
    options amount to. *)
Definition handleSubmit (fuel : nat) (fileParts : list string)
    (headers : option (list (string * string))) (body : option string)
    (chat : t) : t * Completion :=
  if bool_decide (input chat = ""%string) && bool_decide (fileParts = [])
  then (chat, Settled)
  else
    let '(id, w) := ChatClient.generateId C (world chat) in
    let '(chat', done) :=
      append fuel
        (CreateUIMessage.mk (Some id) user
           (map FilePart fileParts ++ [TextPart (input chat)]))
        headers body (with_world w chat) in
    (mk ""%string (onError chat') (onToolCall chat') (onFinish chat')
       (world chat'), done).

Definition addToolResult (fuel : nat) (toolCallId result : string) (chat : t)
    : t * InJob :=
  let '(w, done) :=
    ChatClient.addToolResult C fuel toolCallId result (world chat) in
  (with_world w chat, done).

End WithCollaborators.
End SvelteChat.

(** A [Chat] with some text typed in, on an empty chat. *)
Definition typing (input : string) : SvelteChat.t :=
  SvelteChat.mk input (Some 1%nat) None (Some 2%nat)
    (World.mk (ChatState.mk "chat"%string [] ready None None) Runtime.init).

(** The chat while the request that [triggerRequest] sends from [w] is in
    flight: the transport has been called and the first [n] drafts of the
    response have been published. *)
Definition inFlight (C : Collaborators.t) (requestType : RequestType)
    (opts : CallOptions.t) (w : World.t) (n : nat) : World.t :=
  snd (ChatClient.consumeStream
         (take n (Response.publishes (responseTo C requestType opts w)))
         (openedResponse C w)
         (afterSubmit C requestType opts (RSM.setStatus submitted None w))).

(* ===================================================================== *)
(** ** Array lemmas *)
(* ===================================================================== *)

Lemma js_index_last {A} (l : list A) :
  js_index l (Z.of_nat (length l) - 1) = last l.
Proof.
  unfold js_index. destruct l as [|x l]; [reflexivity|].
  cbn [length].
  destruct (Z.ltb_spec (Z.of_nat (S (length l)) - 1) 0) as [H|H]; [lia|].
  replace (Z.to_nat (Z.of_nat (S (length l)) - 1)) with (length l) by lia.
  rewrite last_lookup. reflexivity.
Qed.

Lemma js_slice_prefix {A} (l : list A) (i : Z) :
  0 ≤ i → js_slice l 0 (Some i) = take (Z.to_nat i) l.
Proof.
  intros Hi. unfold js_slice. cbn.
  destruct (Z.ltb_spec i 0) as [H|H]; [lia|].
  rewrite (Z.min_l 0) by lia. rewrite Z.sub_0_r.
  change (Z.to_nat 0) with 0%nat. rewrite drop_0.
  destruct (Z.le_ge_cases i (Z.of_nat (length l))) as [Hle|Hge].
  - rewrite Z.min_l by lia. reflexivity.
  - rewrite Z.min_r by lia.
    rewrite !take_ge by lia. reflexivity.
Qed.

Lemma js_slice_suffix {A} (l : list A) (k : Z) :
  0 ≤ k → js_slice l k None = drop (Z.to_nat k) l.
Proof.
  intros Hk. unfold js_slice.
  destruct (Z.ltb_spec k 0) as [H|H]; [lia|].
  rewrite take_ge by (rewrite length_drop; lia).
  destruct (Z.le_ge_cases k (Z.of_nat (length l))) as [Hle|Hge].
  - rewrite Z.min_l by lia. reflexivity.
  - rewrite Z.min_r by lia. rewrite !drop_ge by lia. reflexivity.
Qed.

Lemma js_slice_pop {A} (l : list A) :
  js_slice l 0 (Some (-1)) = take (length l - 1) l.
Proof.
  unfold js_slice. cbn.
  destruct l as [|x l]; [reflexivity|].
  rewrite Z.max_l by (cbn [length]; lia).
  f_equal. cbn [length]. lia.
Qed.

(** Replacing the last element, the way [replaceMessage] rebuilds the array. *)
Lemma js_replace_last {A} (l : list A) (x y : A) :
  let index := Z.of_nat (length (l ++ [x])) - 1 in
  js_slice (l ++ [x]) 0 (Some index) ++ [y] ++ js_slice (l ++ [x]) (index + 1) None
  = l ++ [y].
Proof.
  cbn zeta. rewrite length_app. cbn [length].
  rewrite js_slice_prefix, js_slice_suffix by lia.
  replace (Z.to_nat (Z.of_nat (length l + 1) - 1)) with (length l) by lia.
  replace (Z.to_nat (Z.of_nat (length l + 1) - 1 + 1)) with (length (l ++ [x]))
    by (rewrite length_app; cbn [length]; lia).
  rewrite take_app_length, drop_all. reflexivity.
Qed.

(** A list is empty or ends in a last element. *)
Lemma list_snoc_cases {A} (l : list A) :
  l = [] ∨ ∃ l' x, l = l' ++ [x].
Proof.
  induction l as [|y l IH] using rev_ind; [left; reflexivity|].
  right. eauto.
Qed.

(* ===================================================================== *)
(** ** What the mutators of the chat state change *)
(* ===================================================================== *)

Section Frames.
Variables (w : World.t).

Lemma lastMessage_last : ChatClient.lastMessage w = last (messagesOf w).
Proof. apply js_index_last. Qed.

Lemma setStatus_messages s e : messagesOf (RSM.setStatus s e w) = messagesOf w.
Proof. reflexivity. Qed.

Lemma setStatus_log s e :
  logOf (RSM.setStatus s e w)
  = logOf w ++ map (λ sub, OnChatChanged sub
                             (ChatStoreEvent.mk chat_status_changed (idOf w) e))
                 (Runtime.subscribers (World.rt w)).
Proof. reflexivity. Qed.

Lemma pushMessage_messages m :
  messagesOf (RSM.pushMessage m w) = messagesOf w ++ [m].
Proof. reflexivity. Qed.

Lemma popMessage_messages :
  messagesOf (RSM.popMessage w)
  = take (length (messagesOf w) - 1) (messagesOf w).
Proof. cbn. apply js_slice_pop. Qed.

End Frames.

(* ===================================================================== *)
(** ** Publishing the draft *)
(* ===================================================================== *)

(** C1: a publish ([write]) replaces the last message with the draft when
    the list is non-empty and the last message carries the draft's id, and
    appends the draft otherwise (empty list, or a different id); the
    messages before the last one are the same after any publish. *)
Theorem write_replaces_or_appends (activeResponse : ActiveResponse.t)
    (w : World.t) :
  let draft :=
    StreamingUIMessageState.message (ActiveResponse.state activeResponse) in
  let after := messagesOf (ChatClient.write activeResponse w) in
  (∀ ms m, messagesOf w = ms ++ [m] →
           UIMessage.id m = UIMessage.id draft → after = ms ++ [draft])
  ∧ (∀ ms m, messagesOf w = ms ++ [m] →
             UIMessage.id m ≠ UIMessage.id draft → after = ms ++ [m; draft])
  ∧ (messagesOf w = [] → after = [draft])
  ∧ (∀ i : nat, (i + 1 < length (messagesOf w))%nat →
                after !! i = messagesOf w !! i).
Proof.
  cbn zeta.
  assert (Hrepl : ∀ ms m, messagesOf w = ms ++ [m] →
            UIMessage.id m = UIMessage.id
              (StreamingUIMessageState.message
                 (ActiveResponse.state activeResponse)) →
            messagesOf (ChatClient.write activeResponse w)
            = ms ++ [StreamingUIMessageState.message
                       (ActiveResponse.state activeResponse)]).
  { intros ms m Hms Hid. unfold ChatClient.write.
    rewrite lastMessage_last, setStatus_messages, Hms, last_snoc.
    rewrite Hid, String.eqb_refl. cbn.
    change (ChatState.messages (World.chat w)) with (messagesOf w).
    rewrite Hms. apply js_replace_last. }
  assert (Happ : ∀ ms m, messagesOf w = ms ++ [m] →
            UIMessage.id m ≠ UIMessage.id
              (StreamingUIMessageState.message
                 (ActiveResponse.state activeResponse)) →
            messagesOf (ChatClient.write activeResponse w)
            = ms ++ [m; StreamingUIMessageState.message
                          (ActiveResponse.state activeResponse)]).
  { intros ms m Hms Hid. unfold ChatClient.write.
    rewrite lastMessage_last, setStatus_messages, Hms, last_snoc.
    destruct (String.eqb_spec
                (UIMessage.id (StreamingUIMessageState.message
                                 (ActiveResponse.state activeResponse)))
                (UIMessage.id m)) as [E|_]; [congruence|].
    rewrite pushMessage_messages, setStatus_messages, Hms, <- app_assoc.
    reflexivity. }
  assert (Hnil : messagesOf w = [] →
            messagesOf (ChatClient.write activeResponse w)
            = [StreamingUIMessageState.message
                 (ActiveResponse.state activeResponse)]).
  { intros Hms. unfold ChatClient.write.
    rewrite lastMessage_last, setStatus_messages, Hms. cbn.
    change (ChatState.messages (World.chat w)) with (messagesOf w).
    rewrite Hms. reflexivity. }
  repeat split; try assumption.
  intros i Hi.
  destruct (list_snoc_cases (messagesOf w)) as [Hms|(ms & m & Hms)].
  { rewrite Hms in Hi. cbn in Hi. lia. }
  rewrite Hms, length_app in Hi. cbn [length] in Hi.
  destruct (decide (UIMessage.id m = UIMessage.id
              (StreamingUIMessageState.message
                 (ActiveResponse.state activeResponse)))) as [E|E].
  - rewrite (Hrepl _ _ Hms E), Hms, !lookup_app_l by lia. reflexivity.
  - rewrite (Happ _ _ Hms E), Hms, !lookup_app_l by lia. reflexivity.
Qed.

Lemma write_replaces_or_appends_witness :
  messagesOf (ChatClient.write
                (ActiveResponse.mk (StreamingUIMessageState.mk Sample.answered)
                   (Some 0%nat))
                (Sample.world [Sample.hi; Sample.asking] submitted None))
  = [Sample.hi; Sample.answered]
  ∧ messagesOf (ChatClient.write
                  (ActiveResponse.mk (StreamingUIMessageState.mk Sample.partial)
                     (Some 0%nat))
                  (Sample.world [Sample.hi; Sample.asking] submitted None))
    = [Sample.hi; Sample.asking; Sample.partial]
  ∧ messagesOf (ChatClient.write
                  (ActiveResponse.mk (StreamingUIMessageState.mk Sample.partial)
                     (Some 0%nat))
                  (Sample.world [] submitted None))
    = [Sample.partial].
Proof.
  split; [|split].
  - apply (proj1 (write_replaces_or_appends
                    (ActiveResponse.mk
                       (StreamingUIMessageState.mk Sample.answered) (Some 0%nat))
                    (Sample.world [Sample.hi; Sample.asking] submitted None))
             [Sample.hi] Sample.asking); reflexivity.
  - apply (proj1 (proj2 (write_replaces_or_appends
                    (ActiveResponse.mk
                       (StreamingUIMessageState.mk Sample.partial) (Some 0%nat))
                    (Sample.world [Sample.hi; Sample.asking] submitted None)))
             [Sample.hi] Sample.asking); [reflexivity|discriminate].
  - apply (proj1 (proj2 (proj2 (write_replaces_or_appends
                    (ActiveResponse.mk
                       (StreamingUIMessageState.mk Sample.partial) (Some 0%nat))
                    (Sample.world [] submitted None))))); reflexivity.
Defined.

(* ===================================================================== *)
(** ** The Resubmission Policy *)
(* ===================================================================== *)

(** C2: the Resubmission Policy returns true only when the last message is
    from the assistant, every tool invocation in it is in a terminal state,
    the step count strictly increased over the recorded one and is still
    below the maximum; when the message count and the step count are both
    unchanged it returns false, whatever the state of the tool invocations. *)
Theorem shouldResubmitMessages_only_when
    (originalMaxToolInvocationStep originalMessageCount maxSteps : nat)
    (messages : list UIMessage.t) :
  (shouldResubmitMessages originalMaxToolInvocationStep originalMessageCount
     maxSteps messages = true →
   ∃ m, last messages = Some m
        ∧ UIMessage.role m = assistant
        ∧ Forall (λ ti, ToolInvocation.state ti = output_available
                        ∨ ToolInvocation.state ti = output_error)
            (getToolInvocations (Some m))
        ∧ (originalMaxToolInvocationStep
           < extractMaxToolInvocationStep (getToolInvocations (Some m)))%nat
        ∧ (extractMaxToolInvocationStep (getToolInvocations (Some m))
           < maxSteps)%nat)
  ∧ (originalMessageCount = length messages →
     extractMaxToolInvocationStep (getToolInvocations (last messages))
     = originalMaxToolInvocationStep →
     shouldResubmitMessages originalMaxToolInvocationStep originalMessageCount
       maxSteps messages = false).
Proof.
  unfold shouldResubmitMessages. split.
  - destruct (last messages) as [m|]; [|discriminate].
    intros H. apply andb_prop in H as [H Hmax]. apply andb_prop in H as [H Hinc].
    apply andb_prop in H as [Hrole Hterm].
    exists m. repeat split.
    + by apply bool_decide_eq_true in Hrole.
    + apply Forall_forall. intros ti Hti.
      rewrite forallb_forall in Hterm. apply list_elem_of_In in Hti.
      specialize (Hterm ti Hti).
      destruct (ToolInvocation.state ti); try discriminate; auto.
    + by apply Nat.ltb_lt in Hinc.
    + by apply Nat.ltb_lt in Hmax.
  - intros _ Hstep. destruct (last messages) as [m|]; [|reflexivity].
    rewrite Hstep, Nat.ltb_irrefl, andb_false_r. reflexivity.
Qed.

Lemma shouldResubmitMessages_only_when_witness :
  (∃ m, last [Sample.hi; Sample.answered] = Some m
        ∧ UIMessage.role m = assistant
        ∧ Forall (λ ti, ToolInvocation.state ti = output_available
                        ∨ ToolInvocation.state ti = output_error)
            (getToolInvocations (Some m))
        ∧ (0 < extractMaxToolInvocationStep (getToolInvocations (Some m)))%nat
        ∧ (extractMaxToolInvocationStep (getToolInvocations (Some m)) < 2)%nat)
  ∧ shouldResubmitMessages 1 2 5 [Sample.hi; Sample.answered] = false.
Proof.
  split.
  - apply (proj1 (shouldResubmitMessages_only_when 0 1 2
                    [Sample.hi; Sample.answered])).
    reflexivity.
  - apply (proj2 (shouldResubmitMessages_only_when 1 2 5
                    [Sample.hi; Sample.answered])); reflexivity.
Defined.

(* ===================================================================== *)
(** ** Steps that only notify *)
(* ===================================================================== *)

Lemma quiet_refl w : quiet w w.
Proof.
  repeat split; try reflexivity.
  exists []. split; [by rewrite app_nil_r|constructor].
Qed.

Lemma quiet_trans w1 w2 w3 : quiet w1 w2 → quiet w2 w3 → quiet w1 w3.
Proof.
  intros (Hi & Hs & Hn & Hc & Hr & es & Hl & Hes)
         (Hi' & Hs' & Hn' & Hc' & Hr' & es' & Hl' & Hes').
  repeat split; try congruence.
  exists (es ++ es'). split.
  - rewrite Hl', Hl, app_assoc. reflexivity.
  - by apply Forall_app.
Qed.

Lemma quiet_emit event w :
  ChatStoreEvent.error event = None → quiet w (RSM.emit event w).
Proof.
  intros He. repeat split; try reflexivity.
  eexists. split; [reflexivity|].
  apply Forall_forall. intros e [s [-> _]]%list_elem_of_fmap.
  cbn. by apply bool_decide_eq_true.
Qed.

Lemma quiet_setStatus s w : quiet w (RSM.setStatus s None w).
Proof. apply (quiet_emit _ (assign_status s None w)). reflexivity. Qed.


Lemma quiet_pushMessage m w : quiet w (RSM.pushMessage m w).
Proof. apply (quiet_emit _ (assign_messages _ w)). reflexivity. Qed.

Lemma quiet_popMessage w : quiet w (RSM.popMessage w).
Proof. apply (quiet_emit _ (assign_messages _ w)). reflexivity. Qed.

Lemma quiet_replaceMessage i m w : quiet w (RSM.replaceMessage i m w).
Proof. apply (quiet_emit _ (assign_messages _ w)). reflexivity. Qed.

Lemma quiet_assign_activeResponse a w : quiet w (assign_activeResponse a w).
Proof.
  repeat split; try reflexivity.
  exists []. split; [symmetry; apply app_nil_r|constructor].
Qed.

Lemma quiet_write activeResponse w : quiet w (ChatClient.write activeResponse w).
Proof.
  unfold ChatClient.write.
  eapply quiet_trans; [apply (quiet_setStatus streaming)|].
  destruct (ChatClient.lastMessage _) as [m|];
    [destruct (String.eqb _ _)|];
    auto using quiet_replaceMessage, quiet_pushMessage.
Qed.

Lemma quiet_consumeStream publishes activeResponse w :
  quiet w (snd (ChatClient.consumeStream publishes activeResponse w)).
Proof.
  revert activeResponse w.
  induction publishes as [|draft rest IH]; intros activeResponse w.
  - apply quiet_refl.
  - cbn [ChatClient.consumeStream]. unfold ChatClient.runUpdateMessageJob.
    eapply quiet_trans; [|apply IH].
    eapply quiet_trans; [|apply quiet_write].
    destruct (activeResponseOf w);
      [apply quiet_assign_activeResponse|apply quiet_refl].
Qed.

Lemma plain_notification_no_error es :
  Forall (λ e, isPlainNotification e = true) es →
  Forall (λ e, surfacesError e = false) es.
Proof.
  intros H. eapply Forall_impl; [exact H|].
  intros [s ev| | | |] He; try discriminate. cbn in *.
  apply bool_decide_eq_true in He. rewrite He.
  apply bool_decide_eq_false. by intros [? ?].
Qed.

Lemma plain_notification_no_request es :
  Forall (λ e, isPlainNotification e = true) es → requestsIn es = [].
Proof.
  induction 1 as [|e es He _ IH]; [reflexivity|].
  cbn. destruct e; try discriminate. exact IH.
Qed.

Lemma requestsIn_app l1 l2 : requestsIn (l1 ++ l2) = requestsIn l1 ++ requestsIn l2.
Proof. apply omap_app. Qed.

Lemma requestsIn_notifications event subscribers :
  requestsIn (map (λ s, OnChatChanged s event) subscribers) = [].
Proof. induction subscribers as [|s l IH]; [reflexivity|exact IH]. Qed.

Lemma notifications_plain event subscribers :
  ChatStoreEvent.error event = None →
  Forall (λ e, isPlainNotification e = true)
    (map (λ s, OnChatChanged s event) subscribers).
Proof.
  intros He. apply Forall_forall. intros e [s [-> _]]%list_elem_of_fmap.
  cbn. by apply bool_decide_eq_true.
Qed.

Lemma quiet_requests w w' :
  quiet w w' → requestsIn (logOf w') = requestsIn (logOf w).
Proof.
  intros (_ & _ & _ & _ & _ & es & -> & Hes).
  rewrite requestsIn_app, (plain_notification_no_request es Hes).
  apply app_nil_r.
Qed.

(* ===================================================================== *)
(** ** The request cycle *)
(* ===================================================================== *)

Lemma requestCycle_eq C requestType opts w :
  ChatClient.requestCycle C requestType opts w
  = let '(activeResponse, ws) := afterStream C requestType opts w in
    match Response.result (responseTo C requestType opts w) with
    | StreamFinished =>
        (RSM.setActiveResponse None
           (RSM.setStatus ready None
              (match CallOptions.onFinish opts with
               | Some cb =>
                   record [OnFinish cb (StreamingUIMessageState.message
                                          (ActiveResponse.state activeResponse))]
                     ws
               | None => ws
               end)), GoesOn)
    | StreamThrew err =>
        if String.eqb (JsError.name err) "AbortError"
        then (RSM.setActiveResponse None (RSM.setStatus ready None ws),
              ReturnedNull)
        else (RSM.setActiveResponse None
                (RSM.setStatus error (Some err)
                   (match CallOptions.onError opts with
                    | Some cb =>
                        if JsError.instanceofError err
                        then record [OnError cb err] ws else ws
                    | None => ws
                    end)), GoesOn)
    | StreamThrewNullish typeError =>
        (RSM.setActiveResponse None ws, CatchThrew typeError)
    end.
Proof. reflexivity. Qed.

Lemma triggerRequest_S C fuel requestType opts w :
  ChatClient.triggerRequest C (S fuel) requestType opts w
  = match ChatClient.requestCycle C requestType opts
            (RSM.setStatus submitted None w) with
    | (w', ReturnedNull) => (w', Settled)
    | (w', GoesOn) =>
        if policyAfter C w w'
        then ChatClient.triggerRequest C fuel requestType opts w'
        else (w', Settled)
    | (w', CatchThrew err) => (w', Rejected err)
    end.
Proof. reflexivity. Qed.

(** Setting the status to [submitted] changes neither the request that is
    sent nor the response it meets. *)
Lemma responseTo_submitted C requestType opts w :
  responseTo C requestType opts (RSM.setStatus submitted None w)
  = responseTo C requestType opts w.
Proof. reflexivity. Qed.

Lemma afterStream_log C requestType opts w :
  ∃ es, logOf (snd (afterStream C requestType opts w))
        = logOf w ++ SubmitMessages (requestFrom requestType opts w) :: es
        ∧ Forall (λ e, isPlainNotification e = true) es.
Proof.
  destruct (quiet_consumeStream
              (Response.publishes (responseTo C requestType opts w))
              (openedResponse C w) (afterSubmit C requestType opts w))
    as (_ & _ & _ & _ & _ & es & Hl & Hes).
  exists es. split; [|exact Hes].
  unfold afterStream. rewrite Hl. cbn. rewrite <- app_assoc. reflexivity.
Qed.

(** The log once the stream of the cycle started by [triggerRequest] in [w]
    has been consumed: the [submitted] notifications, the call to the
    transport, and the notifications of the publishes. *)
Lemma submitted_stream_log C requestType opts w :
  ∃ es1 es2,
    logOf (snd (afterStream C requestType opts (RSM.setStatus submitted None w)))
    = logOf w ++ es1 ++ SubmitMessages (requestFrom requestType opts w) :: es2
    ∧ Forall (λ e, isPlainNotification e = true) es1
    ∧ Forall (λ e, isPlainNotification e = true) es2.
Proof.
  destruct (afterStream_log C requestType opts (RSM.setStatus submitted None w))
    as (es2 & Hl & Hes2).
  eexists _, es2. split; [|split; [|exact Hes2]].
  - rewrite Hl, setStatus_log, <- app_assoc. reflexivity.
  - by apply notifications_plain.
Qed.

(** C4: a request cycle whose stream ends in an abort error returns
    normally with status [ready], no error stored and the active response
    cleared; between the call and the return exactly the one request is
    sent, [onError] is not invoked and no notification carries an error. *)
Theorem cancelled_cycle_settles_ready C fuel requestType opts w err :
  Response.result (responseTo C requestType opts w) = StreamThrew err →
  JsError.name err = "AbortError"%string →
  ∃ w', ChatClient.triggerRequest C (S fuel) requestType opts w = (w', Settled)
        ∧ statusOf w' = ready
        ∧ errorOf w' = None
        ∧ activeResponseOf w' = None
        ∧ ∃ es, logOf w' = logOf w ++ es
                ∧ requestsIn es = [requestFrom requestType opts w]
                ∧ Forall (λ e, surfacesError e = false) es.
Proof.
  intros Hres Hname.
  rewrite triggerRequest_S, requestCycle_eq, responseTo_submitted, Hres, Hname.
  destruct (submitted_stream_log C requestType opts w)
    as (es1 & es2 & Hl & Hes1 & Hes2).
  destruct (afterStream C requestType opts (RSM.setStatus submitted None w))
    as [activeResponse ws].
  rewrite String.eqb_refl. eexists. split; [reflexivity|].
  repeat split.
  cbn [snd] in Hl.
  eexists. split.
  - unfold RSM.setActiveResponse.
    change (logOf (assign_activeResponse None (RSM.setStatus ready None ws)))
      with (logOf (RSM.setStatus ready None ws)).
    rewrite setStatus_log, Hl, <- !app_assoc. reflexivity.
  - split.
    + rewrite !requestsIn_app.
      change (requestsIn (SubmitMessages ?r :: es2))
        with (r :: requestsIn es2).
      rewrite (plain_notification_no_request es1 Hes1),
        (plain_notification_no_request es2 Hes2).
      rewrite requestsIn_notifications. reflexivity.
    + rewrite ?Forall_app, ?Forall_cons, ?Forall_app.
      repeat split; try reflexivity;
        apply plain_notification_no_error; try assumption.
      by apply notifications_plain.
Qed.

Lemma cancelled_cycle_settles_ready_witness :
  ∃ w', ChatClient.triggerRequest Sample.cancelled 1 generate Sample.options
          (Sample.world [Sample.hi] ready None) = (w', Settled)
        ∧ statusOf w' = ready
        ∧ errorOf w' = None
        ∧ activeResponseOf w' = None
        ∧ ∃ es, logOf w' = logOf (Sample.world [Sample.hi] ready None) ++ es
                ∧ requestsIn es
                  = [requestFrom generate Sample.options
                       (Sample.world [Sample.hi] ready None)]
                ∧ Forall (λ e, surfacesError e = false) es.
Proof.
  apply (cancelled_cycle_settles_ready Sample.cancelled 0 generate
           Sample.options (Sample.world [Sample.hi] ready None) Sample.aborted);
    reflexivity.
Defined.

(* ===================================================================== *)
(** ** Requests sent by [triggerRequest] *)
(* ===================================================================== *)

Lemma requestCycle_requests C requestType opts w :
  requestsIn (logOf (fst (ChatClient.requestCycle C requestType opts w)))
  = requestsIn (logOf w) ++ [requestFrom requestType opts w].
Proof.
  rewrite requestCycle_eq.
  destruct (afterStream_log C requestType opts w) as (es & Hl & Hes).
  destruct (afterStream C requestType opts w) as [activeResponse ws].
  cbn [snd] in Hl.
  assert (Hws : requestsIn (logOf ws)
                = requestsIn (logOf w) ++ [requestFrom requestType opts w]).
  { rewrite Hl, requestsIn_app.
    change (requestsIn (SubmitMessages ?r :: es)) with (r :: requestsIn es).
    by rewrite (plain_notification_no_request es Hes). }
  assert (Hset : ∀ s e x, requestsIn (logOf (RSM.setActiveResponse None
                                               (RSM.setStatus s e x)))
                          = requestsIn (logOf x)).
  { intros s e x.
    change (logOf (RSM.setActiveResponse None (RSM.setStatus s e x)))
      with (logOf (RSM.setStatus s e x)).
    rewrite setStatus_log, requestsIn_app, requestsIn_notifications.
    apply app_nil_r. }
  assert (Hrec : ∀ e, requestsIn [e] = [] →
                      requestsIn (logOf (record [e] ws)) = requestsIn (logOf ws)).
  { intros e He.
    change (logOf (record [e] ws)) with (logOf ws ++ [e]).
    rewrite requestsIn_app, He. apply app_nil_r. }
  destruct (Response.result _) as [|err|typeError].
  - cbn [fst]. rewrite Hset.
    destruct (CallOptions.onFinish opts); [rewrite Hrec by reflexivity|];
      exact Hws.
  - destruct (String.eqb _ _); cbn [fst]; rewrite Hset; [exact Hws|].
    destruct (CallOptions.onError opts);
      [destruct (JsError.instanceofError err);
       [rewrite Hrec by reflexivity|]|];
      exact Hws.
  - exact Hws.
Qed.

Lemma triggerRequest_requests_prefix C fuel requestType opts w :
  ∃ rest,
    requestsIn (logOf (fst (ChatClient.triggerRequest C fuel requestType opts w)))
    = requestsIn (logOf w) ++ rest.
Proof.
  revert w. induction fuel as [|fuel IH]; intros w.
  - exists []. by rewrite app_nil_r.
  - rewrite triggerRequest_S.
    pose proof (requestCycle_requests C requestType opts
                  (RSM.setStatus submitted None w)) as Hreq.
    rewrite (quiet_requests _ _ (quiet_setStatus submitted w)) in Hreq.
    destruct (ChatClient.requestCycle _ _ _ _) as [w1 [| |err]];
      cbn [fst] in *.
    + eauto.
    + destruct (policyAfter C w w1); [|eauto].
      destruct (IH w1) as [rest Hrest].
      exists (requestFrom requestType opts (RSM.setStatus submitted None w)
                :: rest).
      rewrite Hrest, Hreq, <- app_assoc. reflexivity.
    + eauto.
Qed.

(** Every run of [triggerRequest] that is granted a cycle starts by sending
    the chat's messages to the transport. *)
Lemma triggerRequest_first_request C fuel requestType opts w :
  ∃ rest,
    requestsIn
      (logOf (fst (ChatClient.triggerRequest C (S fuel) requestType opts w)))
    = requestsIn (logOf w) ++ requestFrom requestType opts w :: rest.
Proof.
  rewrite triggerRequest_S.
  pose proof (requestCycle_requests C requestType opts
                (RSM.setStatus submitted None w)) as Hreq.
  rewrite (quiet_requests _ _ (quiet_setStatus submitted w)) in Hreq.
  change (requestFrom requestType opts (RSM.setStatus submitted None w))
    with (requestFrom requestType opts w) in Hreq.
  destruct (ChatClient.requestCycle _ _ _ _) as [w1 [| |err]];
    cbn [fst] in *.
  - exists []. exact Hreq.
  - destruct (policyAfter C w w1); [|exists []; exact Hreq].
    destruct (triggerRequest_requests_prefix C fuel requestType opts w1)
      as [rest Hrest].
    exists rest. rewrite Hrest, Hreq, <- app_assoc. reflexivity.
  - exists []. exact Hreq.
Qed.

(* ===================================================================== *)
(** ** A request awaited inside a job of the executor *)
(* ===================================================================== *)

(** Inside a job the cycle is the cycle of a free-standing call when the
    merger has no job to run, and it stops right after the transport call
    when it has one. *)
Lemma requestCycleInJob_cases C requestType opts w :
  (Response.publishes (responseTo C requestType opts w) = []
   ∧ ChatClient.requestCycleInJob C requestType opts w
     = (fst (ChatClient.requestCycle C requestType opts w),
        Some (snd (ChatClient.requestCycle C requestType opts w))))
  ∨ (Response.publishes (responseTo C requestType opts w) ≠ []
     ∧ ChatClient.requestCycleInJob C requestType opts w
       = (afterSubmit C requestType opts w, None)).
Proof.
  rewrite requestCycle_eq.
  unfold ChatClient.requestCycleInJob, afterStream.
  change (fst (ChatClient.submitMessages C
                 (TransportRequest.mk _ _ _ _ _ _) _ _ _))
    with (responseTo C requestType opts w).
  cbn -[RSM.setActiveResponse RSM.setStatus].
  change (Collaborators.stream C _ _ _ _)
    with (responseTo C requestType opts w).
  destruct (Response.publishes (responseTo C requestType opts w))
    as [|draft rest]; [left|right]; (split; [done|]).
  - cbn -[RSM.setActiveResponse RSM.setStatus].
    destruct (Response.result _) as [|err|typeError]; [reflexivity| |reflexivity].
    destruct (String.eqb _ _); reflexivity.
  - reflexivity.
Qed.



Lemma triggerRequestInJob_S C fuel requestType opts w :
  ChatClient.triggerRequestInJob C (S fuel) requestType opts w
  = match ChatClient.requestCycleInJob C requestType opts
            (RSM.setStatus submitted None w) with
    | (w', None) => (w', NeverSettles)
    | (w', Some ReturnedNull) => (w', Ended Settled)
    | (w', Some GoesOn) =>
        if policyAfter C w w'
        then ChatClient.triggerRequestInJob C fuel requestType opts w'
        else (w', Ended Settled)
    | (w', Some (CatchThrew err)) => (w', Ended (Rejected err))
    end.
Proof. reflexivity. Qed.



(* ===================================================================== *)
(** ** After a failed request *)
(* ===================================================================== *)




(* ===================================================================== *)
(** ** The tool loop under the policy of the specification *)
(* ===================================================================== *)

Lemma shouldResubmitMessages_steps original count maxSteps messages :
  shouldResubmitMessages original count maxSteps messages = true →
  (original < extractMaxToolInvocationStep (getToolInvocations (last messages))
   < maxSteps)%nat.
Proof.
  unfold shouldResubmitMessages.
  destruct (last messages) as [m|]; [|discriminate].
  intros H. apply andb_prop in H as [H Hmax]. apply andb_prop in H as [_ Hinc].
  apply Nat.ltb_lt in Hinc, Hmax. lia.
Qed.

(** With that policy every run of [triggerRequest] ends, returning or
    rejected: a further cycle needs a step count that grew and is still
    below the maximum, so [maxSteps] cycles after the first are the most
    there can be. *)
Lemma triggerRequest_settles generateId maxSteps stream fuel requestType opts w :
  (maxSteps
   - extractMaxToolInvocationStep (getToolInvocations (last (messagesOf w)))
   < fuel)%nat →
  snd (ChatClient.triggerRequest (specCollaborators generateId maxSteps stream)
         fuel requestType opts w) ≠ OutOfFuel.
Proof.
  revert w. induction fuel as [|fuel IH]; intros w Hfuel; [lia|].
  rewrite triggerRequest_S.
  destruct (ChatClient.requestCycle _ _ _ _) as [w1 [| |err]];
    [discriminate| |discriminate].
  destruct (policyAfter _ w w1) eqn:Hp; [|discriminate].
  apply IH. unfold policyAfter in Hp.
  apply shouldResubmitMessages_steps in Hp.
  rewrite lastMessage_last in Hp.
  change (Collaborators.extractMaxToolInvocationStep _)
    with extractMaxToolInvocationStep in Hp.
  change (Collaborators.getToolInvocations _) with getToolInvocations in Hp.
  change (Collaborators.maxSteps _) with maxSteps in Hp.
  lia.
Qed.

(** The scenarios of the specification, run on the model. *)
Example scenario_hello :
  let run := ChatClient.submitMessage Sample.hello 1
               (CreateUIMessage.mk None user [TextPart "hi"]) Sample.options
               (Sample.world [] ready None) in
  snd run = Settled
  ∧ statusOf (fst run) = ready
  ∧ messagesOf (fst run)
    = [UIMessage.mk "msg-0" user [TextPart "hi"];
       UIMessage.mk "msg-1" assistant [TextPart "Hello"]].
Proof. cbv zeta. repeat split. Qed.

Example scenario_cancelled :
  let run := ChatClient.triggerRequest Sample.cancelled 1 generate Sample.options
               (Sample.world [Sample.hi] ready None) in
  snd run = Settled
  ∧ statusOf (fst run) = ready
  ∧ errorOf (fst run) = None
  ∧ messagesOf (fst run)
    = [Sample.hi; UIMessage.mk "msg-0" assistant [TextPart "Par"]].
Proof. cbv zeta. repeat split. Qed.

Example scenario_tool_result :
  let run := ChatClient.addToolResult Sample.idle 5 "call-1" "sunny"
               (Sample.world [Sample.hi; Sample.asking] ready None) in
  snd run = Ended Settled
  ∧ statusOf (fst run) = ready
  ∧ messagesOf (fst run) = [Sample.hi; Sample.answered]
  ∧ length (requestsIn (logOf (fst run))) = 1%nat.
Proof. cbv zeta. repeat split. Qed.

(* ===================================================================== *)
(** ** Stopping the stream *)
(* ===================================================================== *)

(** C6: outside the statuses [submitted] and [streaming], [stopStream]
    changes nothing at all (status, messages, error, active response and
    log), and a second call never adds anything to a first one; in status
    [submitted] or [streaming] it fires the abort signal of the active
    response's cancellation handle and clears the handle, leaving status,
    messages and error as they are (and it does nothing when there is no
    handle left to abort). *)
Theorem stopStream_spec (w : World.t) :
  (statusOf w ≠ submitted → statusOf w ≠ streaming →
   ChatClient.stopStream w = w)
  ∧ ChatClient.stopStream (ChatClient.stopStream w) = ChatClient.stopStream w
  ∧ (statusOf w = submitted ∨ statusOf w = streaming →
     (∀ activeResponse controller,
        activeResponseOf w = Some activeResponse →
        ActiveResponse.abortController activeResponse = Some controller →
        logOf (ChatClient.stopStream w) = logOf w ++ [Abort controller]
        ∧ activeResponseOf (ChatClient.stopStream w)
          = Some (ActiveResponse.mk (ActiveResponse.state activeResponse) None)
        ∧ statusOf (ChatClient.stopStream w) = statusOf w
        ∧ messagesOf (ChatClient.stopStream w) = messagesOf w
        ∧ errorOf (ChatClient.stopStream w) = errorOf w)
     ∧ ((activeResponseOf w = None
         ∨ ∃ activeResponse,
             activeResponseOf w = Some activeResponse
             ∧ ActiveResponse.abortController activeResponse = None) →
        ChatClient.stopStream w = w)).
Proof.
  split; [|split].
  - intros H1 H2. unfold ChatClient.stopStream.
    destruct (decide _) as [_|H]; [reflexivity|].
    exfalso. apply H. split; assumption.
  - unfold ChatClient.stopStream at 2 3.
    destruct (decide _) as [Hidle|Hactive].
    { unfold ChatClient.stopStream. destruct (decide _); [reflexivity|tauto]. }
    destruct (activeResponseOf w) as [activeResponse|] eqn:Ha.
    + destruct (ActiveResponse.abortController activeResponse) as [c|] eqn:Hc.
      * unfold ChatClient.stopStream.
        destruct (decide _); [reflexivity|]. reflexivity.
      * unfold ChatClient.stopStream.
        destruct (decide _); [reflexivity|]. rewrite Ha, Hc. reflexivity.
    + unfold ChatClient.stopStream.
      destruct (decide _); [reflexivity|]. rewrite Ha. reflexivity.
  - intros Hactive.
    assert (Hgo : ¬ (statusOf w ≠ streaming ∧ statusOf w ≠ submitted))
      by (intros [? ?]; destruct Hactive; congruence).
    split.
    + intros activeResponse controller Ha Hc. unfold ChatClient.stopStream.
      destruct (decide _); [tauto|]. rewrite Ha, Hc. repeat split.
    + intros Hnone. unfold ChatClient.stopStream.
      destruct (decide _); [tauto|].
      destruct Hnone as [->|(activeResponse & -> & ->)]; reflexivity.
Qed.

Lemma stopStream_spec_witness :
  let handle := ActiveResponse.mk (StreamingUIMessageState.mk Sample.partial)
                  (Some 0%nat) in
  let idle := Sample.world [Sample.hi] ready None in
  let busy := Sample.world [Sample.hi; Sample.partial] streaming (Some handle) in
  ChatClient.stopStream idle = idle
  ∧ logOf (ChatClient.stopStream busy) = logOf busy ++ [Abort 0%nat]
  ∧ activeResponseOf (ChatClient.stopStream busy)
    = Some (ActiveResponse.mk (StreamingUIMessageState.mk Sample.partial) None)
  ∧ messagesOf (ChatClient.stopStream busy) = [Sample.hi; Sample.partial]
  ∧ ChatClient.stopStream (Sample.world [Sample.hi] submitted None)
    = Sample.world [Sample.hi] submitted None.
Proof.
  cbv zeta. split; [|split; [|split; [|split]]].
  - apply (proj1 (stopStream_spec (Sample.world [Sample.hi] ready None)));
      discriminate.
  - apply (proj1 (proj2 (proj2 (stopStream_spec
             (Sample.world [Sample.hi; Sample.partial] streaming
                (Some (ActiveResponse.mk
                         (StreamingUIMessageState.mk Sample.partial)
                         (Some 0%nat)))))) (or_intror eq_refl))
             _ 0%nat eq_refl eq_refl).
  - apply (proj1 (proj2 (proj2 (stopStream_spec
             (Sample.world [Sample.hi; Sample.partial] streaming
                (Some (ActiveResponse.mk
                         (StreamingUIMessageState.mk Sample.partial)
                         (Some 0%nat)))))) (or_intror eq_refl))
             _ 0%nat eq_refl eq_refl).
  - apply (proj1 (proj2 (proj2 (stopStream_spec
             (Sample.world [Sample.hi; Sample.partial] streaming
                (Some (ActiveResponse.mk
                         (StreamingUIMessageState.mk Sample.partial)
                         (Some 0%nat)))))) (or_intror eq_refl))
             _ 0%nat eq_refl eq_refl).
  - apply (proj2 (proj2 (proj2 (stopStream_spec
             (Sample.world [Sample.hi] submitted None)))
             (or_introl eq_refl))).
    left. reflexivity.
Defined.

(* ===================================================================== *)
(** ** Removing the assistant response *)
(* ===================================================================== *)

(** C8: [removeAssistantResponse] throws (an [Error], the spec's
    InvalidStateError) exactly when the chat is empty or its last message is
    not from the assistant, and then leaves everything unchanged; otherwise
    it returns and removes exactly the last message.  In no case is the
    transport called. *)
Theorem removeAssistantResponse_spec (w : World.t) :
  let after := fst (ChatClient.removeAssistantResponse w) in
  let outcome := snd (ChatClient.removeAssistantResponse w) in
  ((∃ err, outcome = Threw err)
   ↔ (messagesOf w = []
      ∨ ∃ m, last (messagesOf w) = Some m ∧ UIMessage.role m ≠ assistant))
  ∧ (∀ err, outcome = Threw err →
            after = w
            ∧ JsError.name err = "Error"%string
            ∧ JsError.instanceofError err = true)
  ∧ (∀ ms m, messagesOf w = ms ++ [m] → UIMessage.role m = assistant →
             outcome = Returned tt ∧ messagesOf after = ms)
  ∧ requestsIn (logOf after) = requestsIn (logOf w)
  ∧ Runtime.requests (World.rt after) = Runtime.requests (World.rt w).
Proof.
  cbv zeta. unfold ChatClient.removeAssistantResponse.
  rewrite lastMessage_last.
  destruct (list_snoc_cases (messagesOf w)) as [Hms|(ms & m & Hms)].
  - rewrite Hms. cbn [last fst snd].
    split; [|split; [|split; [|split]]]; try reflexivity.
    + split; [intros _; by left|intros _; eauto].
    + intros err [= <-]. repeat split.
    + intros ms m Hcontra. by destruct ms.
  - rewrite Hms, last_snoc.
    destruct (decide (UIMessage.role m ≠ assistant)) as [Hrole|Hrole];
      cbn [fst snd].
    + split; [|split; [|split; [|split]]]; try reflexivity.
      * split; [|intros _; eauto].
        intros _. right. exists m. split; [reflexivity|exact Hrole].
      * intros err [= <-]. repeat split.
      * intros ms' m' [-> ->]%app_inj_tail Hr. contradiction.
    + split; [|split; [|split; [|split]]]; try reflexivity.
      * split; [intros [err [=]]|].
        intros [Hnil|(m' & Hlast & Hr)].
        -- by destruct ms.
        -- by simplify_eq.
      * intros err [=].
      * intros ms' m' [-> ->]%app_inj_tail _. split; [reflexivity|].
        rewrite popMessage_messages, Hms, length_app. cbn [length].
        replace (length ms' + 1 - 1)%nat with (length ms') by lia.
        apply take_app_length.
      * apply quiet_requests, quiet_popMessage.
Qed.

Lemma removeAssistantResponse_spec_witness :
  (∃ err, snd (ChatClient.removeAssistantResponse
                 (Sample.world [] ready None)) = Threw err)
  ∧ (fst (ChatClient.removeAssistantResponse (Sample.world [Sample.hi] ready None))
     = Sample.world [Sample.hi] ready None)
  ∧ (snd (ChatClient.removeAssistantResponse
            (Sample.world [Sample.hi; Sample.answered] ready None))
     = Returned tt
     ∧ messagesOf (fst (ChatClient.removeAssistantResponse
                          (Sample.world [Sample.hi; Sample.answered] ready None)))
       = [Sample.hi]).
Proof.
  split; [|split].
  - apply (proj2 (proj1 (removeAssistantResponse_spec
                           (Sample.world [] ready None)))).
    left. reflexivity.
  - apply (proj1 (proj2 (removeAssistantResponse_spec
                           (Sample.world [Sample.hi] ready None)))
             (JsError.mk "Error" "Last message is not an assistant message"
                true) eq_refl).
  - apply (proj1 (proj2 (proj2 (removeAssistantResponse_spec
                           (Sample.world [Sample.hi; Sample.answered] ready
                              None)))) [Sample.hi] Sample.answered);
      reflexivity.
Defined.

(* ===================================================================== *)
(** ** Resubmitting *)
(* ===================================================================== *)

(** C7: on an empty chat [resubmitLastUserMessage] changes nothing and
    sends nothing; when the last message is from the assistant it removes
    exactly that message and then runs the request cycle, whose first
    request carries the remaining messages; otherwise it runs the request
    cycle on the unchanged list, whose first request carries all of it. *)
Theorem resubmitLastUserMessage_spec C fuel opts (w : World.t) :
  (messagesOf w = [] →
   ChatClient.resubmitLastUserMessage C fuel opts w = (w, Settled))
  ∧ (∀ ms m, messagesOf w = ms ++ [m] → UIMessage.role m = assistant →
       messagesOf (RSM.popMessage w) = ms
       ∧ ChatClient.resubmitLastUserMessage C fuel opts w
         = ChatClient.triggerRequest C fuel generate opts (RSM.popMessage w)
       ∧ ∃ rest,
           requestsIn (logOf (fst (ChatClient.resubmitLastUserMessage C
                                     (S fuel) opts w)))
           = requestsIn (logOf w)
               ++ TransportRequest.mk (idOf w) ms (CallOptions.body opts)
                    (CallOptions.headers opts)
                    (Some (Runtime.controllers (World.rt w))) generate
               :: rest)
  ∧ (∀ ms m, messagesOf w = ms ++ [m] → UIMessage.role m ≠ assistant →
       ChatClient.resubmitLastUserMessage C fuel opts w
       = ChatClient.triggerRequest C fuel generate opts w
       ∧ ∃ rest,
           requestsIn (logOf (fst (ChatClient.resubmitLastUserMessage C
                                     (S fuel) opts w)))
           = requestsIn (logOf w)
               ++ TransportRequest.mk (idOf w) (ms ++ [m])
                    (CallOptions.body opts) (CallOptions.headers opts)
                    (Some (Runtime.controllers (World.rt w))) generate
               :: rest).
Proof.
  unfold ChatClient.resubmitLastUserMessage. rewrite lastMessage_last.
  split; [|split].
  - intros ->. reflexivity.
  - intros ms m Hms Hrole. rewrite Hms, last_snoc.
    destruct (decide (UIMessage.role m = assistant)); [|contradiction].
    assert (Hpop : messagesOf (RSM.popMessage w) = ms).
    { rewrite popMessage_messages, Hms, length_app. cbn [length].
      replace (length ms + 1 - 1)%nat with (length ms) by lia.
      apply take_app_length. }
    split; [exact Hpop|]. split; [reflexivity|].
    destruct (triggerRequest_first_request C fuel generate opts
                (RSM.popMessage w)) as [rest Hrest].
    exists rest. rewrite Hrest.
    rewrite (quiet_requests _ _ (quiet_popMessage w)).
    unfold requestFrom. rewrite Hpop. reflexivity.
  - intros ms m Hms Hrole. rewrite Hms, last_snoc.
    destruct (decide (UIMessage.role m = assistant)); [contradiction|].
    split; [reflexivity|].
    destruct (triggerRequest_first_request C fuel generate opts w)
      as [rest Hrest].
    exists rest. rewrite Hrest. unfold requestFrom. rewrite Hms. reflexivity.
Qed.

Lemma resubmitLastUserMessage_spec_witness :
  ChatClient.resubmitLastUserMessage Sample.idle 3 Sample.options
    (Sample.world [] ready None) = (Sample.world [] ready None, Settled)
  ∧ messagesOf (RSM.popMessage
                  (Sample.world [Sample.hi; Sample.answered] ready None))
    = [Sample.hi]
  ∧ ChatClient.resubmitLastUserMessage Sample.idle 3 Sample.options
      (Sample.world [Sample.hi] ready None)
    = ChatClient.triggerRequest Sample.idle 3 generate Sample.options
        (Sample.world [Sample.hi] ready None).
Proof.
  split; [|split].
  - apply (proj1 (resubmitLastUserMessage_spec Sample.idle 3 Sample.options
                    (Sample.world [] ready None))).
    reflexivity.
  - apply (proj1 (proj2 (resubmitLastUserMessage_spec Sample.idle 3
                           Sample.options
                           (Sample.world [Sample.hi; Sample.answered] ready
                              None))) [Sample.hi] Sample.answered);
      reflexivity.
  - apply (proj2 (proj2 (resubmitLastUserMessage_spec Sample.idle 3
                           Sample.options
                           (Sample.world [Sample.hi] ready None)))
             [] Sample.hi); [reflexivity|discriminate].
Defined.

(* ===================================================================== *)
(** ** Adding a tool result *)
(* ===================================================================== *)



(* ===================================================================== *)
(** ** The chat store *)
(* ===================================================================== *)

Lemma getClient_missing id (st : ChatStore.t) :
  ChatStore.chats st !! id = None →
  ChatStore.getClient id st
  = (ReactStateManager.new id (Some []), ChatStore.addChat id [] st).
Proof. intros H. unfold ChatStore.getClient. rewrite H. reflexivity. Qed.

Lemma getClient_present id (st : ChatStore.t) c :
  ChatStore.chats st !! id = Some c → ChatStore.getClient id st = (c, st).
Proof. intros H. unfold ChatStore.getClient. rewrite H. reflexivity. Qed.

Lemma onClient_addChat {A} id (method : World.t → World.t * A)
    (st : ChatStore.t) :
  ChatStore.chats st !! id = None →
  ChatStore.onClient id method st
  = ChatStore.onClient id method (ChatStore.addChat id [] st).
Proof.
  intros H. unfold ChatStore.onClient.
  rewrite (getClient_missing id st H).
  rewrite (getClient_present id (ChatStore.addChat id [] st)
             (ReactStateManager.new id (Some [])));
    [reflexivity|apply lookup_insert_eq].
Qed.

Lemma onClient_dom {A} id (method : World.t → World.t * A) (st : ChatStore.t) :
  dom (ChatStore.chats (fst (ChatStore.onClient id method st)))
  = {[id]} ∪ dom (ChatStore.chats st).
Proof.
  unfold ChatStore.onClient, ChatStore.getClient.
  destruct (ChatStore.chats st !! id) as [c|] eqn:Hc.
  - destruct (method _) as [w a]. cbn. by rewrite dom_insert_L.
  - destruct (method _) as [w a]. cbn. rewrite !dom_insert_L.
    by rewrite (assoc_L (∪)), (idemp_L (∪)).
Qed.

Lemma storeAfter_dom C call id st :
  dom (ChatStore.chats (storeAfter C call id st))
  = {[id]} ∪ dom (ChatStore.chats st).
Proof. destruct call; apply onClient_dom. Qed.

Lemma storeAfter_addChat C call id st :
  ChatStore.chats st !! id = None →
  storeAfter C call id st = storeAfter C call id (ChatStore.addChat id [] st).
Proof.
  intros H. destruct call; cbn [storeAfter];
    unfold ChatStore.getStatus, ChatStore.getMessages, ChatStore.getError,
      ChatStore.getLastMessage, ChatStore.setStatus, ChatStore.setMessages,
      ChatStore.submitMessage, ChatStore.resubmitLastUserMessage,
      ChatStore.resumeStream, ChatStore.addToolResult, ChatStore.stopStream,
      ChatStore.removeAssistantResponse;
    f_equal; by apply onClient_addChat.
Qed.

(** C9: called with an id for which the store has no chat, each of the
    per-id accessors and operations behaves as if a chat with that id, an
    empty message list and status [ready] had been added first (that is
    what [getClient] does); afterwards [hasChat] is true for the id and
    [chatCount] has grown by one. *)
Theorem implicit_chat_creation C (call : StoreCall) id (st : ChatStore.t) :
  ChatStore.chats st !! id = None →
  ChatStore.hasChat id st = false
  ∧ ChatStore.getClient id st
    = (ChatState.mk id [] ready None None, ChatStore.addChat id [] st)
  ∧ storeAfter C call id st = storeAfter C call id (ChatStore.addChat id [] st)
  ∧ ChatStore.hasChat id (storeAfter C call id st) = true
  ∧ ChatStore.chatCount (storeAfter C call id st) = S (ChatStore.chatCount st).
Proof.
  intros Hnone.
  split; [|split; [|split; [|split]]].
  - unfold ChatStore.hasChat. rewrite Hnone.
    apply bool_decide_eq_false. by intros [? ?].
  - by apply getClient_missing.
  - by apply storeAfter_addChat.
  - unfold ChatStore.hasChat. apply bool_decide_eq_true.
    apply elem_of_dom. rewrite storeAfter_dom.
    apply elem_of_union_l, elem_of_singleton. reflexivity.
  - unfold ChatStore.chatCount.
    rewrite <- !size_dom, storeAfter_dom.
    rewrite size_union, size_singleton; [reflexivity|].
    apply disjoint_singleton_l. by apply not_elem_of_dom.
Qed.

Lemma implicit_chat_creation_witness :
  ChatStore.hasChat "other" (storeAfter Sample.idle RemoveAssistantResponse
                               "other" Sample.store) = true
  ∧ ChatStore.chatCount (storeAfter Sample.idle
                           (SubmitMessage 3
                              (CreateUIMessage.mk None user [TextPart "hi"])
                              Sample.options)
                           "other" Sample.store)
    = S (ChatStore.chatCount Sample.store)
  ∧ ChatStore.getClient "other" Sample.store
    = (ChatState.mk "other" [] ready None None,
       ChatStore.addChat "other" [] Sample.store).
Proof.
  split; [|split].
  - apply (implicit_chat_creation Sample.idle RemoveAssistantResponse "other"
             Sample.store).
    reflexivity.
  - apply (implicit_chat_creation Sample.idle
             (SubmitMessage 3 (CreateUIMessage.mk None user [TextPart "hi"])
                Sample.options) "other" Sample.store).
    reflexivity.
  - apply (implicit_chat_creation Sample.idle GetStatus "other" Sample.store).
    reflexivity.
Defined.

(** C10: [ChatStore.setStatus] with the status the chat already has changes
    nothing, whatever error is passed along: the store is as [getClient]
    leaves it, which for a chat that exists is the store as it was, with
    the stored status and error and with no subscriber notified. *)
Theorem store_setStatus_same_status id status err (st : ChatStore.t) :
  ChatState.status (fst (ChatStore.getClient id st)) = status →
  ChatStore.setStatus id status err st = snd (ChatStore.getClient id st)
  ∧ ChatStore.rt (ChatStore.setStatus id status err st) = ChatStore.rt st
  ∧ (is_Some (ChatStore.chats st !! id) →
     ChatStore.setStatus id status err st = st).
Proof.
  intros Hs.
  assert (Hget : ChatStore.setStatus id status err st
                 = snd (ChatStore.getClient id st)).
  { unfold ChatStore.setStatus, ChatStore.onClient.
    unfold ChatStore.getClient in *.
    destruct (ChatStore.chats st !! id) as [c|] eqn:Hc; cbn [fst snd] in *.
    - unfold statusOf. cbn [World.chat].
      destruct (decide (ChatState.status c = status)); [|contradiction].
      cbn. destruct st as [chats rt]. cbn in *.
      f_equal. by apply insert_id.
    - unfold statusOf. cbn [World.chat].
      destruct (decide (ChatState.status (ChatStore.newChatClient id []) = status));
        [|contradiction].
      cbn. f_equal. apply insert_insert_eq. }
  split; [exact Hget|]. split.
  - rewrite Hget. unfold ChatStore.getClient.
    destruct (ChatStore.chats st !! id); reflexivity.
  - intros [c Hc]. rewrite Hget, (getClient_present id st c Hc). reflexivity.
Qed.

Lemma store_setStatus_same_status_witness :
  ChatStore.setStatus "chat" error
    (Some (JsError.mk "TypeError" "another failure" true)) Sample.store
  = Sample.store.
Proof.
  apply (store_setStatus_same_status "chat" error
           (Some (JsError.mk "TypeError" "another failure" true)) Sample.store);
    [reflexivity|].
  exists (ChatState.mk "chat" [Sample.hi] error (Some Sample.boom) None).
  reflexivity.
Defined.

(* ===================================================================== *)
(** ** More about the request cycle *)
(* ===================================================================== *)

Lemma write_messages_cases activeResponse w :
  let draft :=
    StreamingUIMessageState.message (ActiveResponse.state activeResponse) in
  messagesOf (ChatClient.write activeResponse w) = messagesOf w ++ [draft]
  ∨ ∃ ms m, messagesOf w = ms ++ [m]
            ∧ messagesOf (ChatClient.write activeResponse w) = ms ++ [draft].
Proof.
  cbv zeta. unfold ChatClient.write.
  rewrite lastMessage_last, setStatus_messages.
  destruct (list_snoc_cases (messagesOf w)) as [Hms|(ms & m & Hms)].
  - left. rewrite Hms. cbn.
    change (ChatState.messages (World.chat w)) with (messagesOf w).
    rewrite Hms. reflexivity.
  - rewrite Hms, last_snoc.
    destruct (String.eqb _ _).
    + right. exists ms, m. split; [reflexivity|].
      cbn. change (ChatState.messages (World.chat w)) with (messagesOf w).
      rewrite Hms. apply js_replace_last.
    + left. rewrite pushMessage_messages, setStatus_messages, Hms. reflexivity.
Qed.

Lemma write_last activeResponse w :
  last (messagesOf (ChatClient.write activeResponse w))
  = Some (StreamingUIMessageState.message (ActiveResponse.state activeResponse)).
Proof.
  destruct (write_messages_cases activeResponse w) as [->|(ms & m & _ & ->)];
    apply last_snoc.
Qed.

Lemma write_status activeResponse w :
  statusOf (ChatClient.write activeResponse w) = streaming
  ∧ errorOf (ChatClient.write activeResponse w) = None
  ∧ activeResponseOf (ChatClient.write activeResponse w) = activeResponseOf w.
Proof.
  unfold ChatClient.write.
  destruct (ChatClient.lastMessage _) as [m|]; [destruct (String.eqb _ _)|];
    repeat split.
Qed.

Lemma keeps_refl ms : keeps ms ms.
Proof. split; [lia|reflexivity]. Qed.

Lemma keeps_trans a b c : keeps a b → keeps b c → keeps a c.
Proof.
  intros [Hl1 H1] [Hl2 H2]. split; [lia|].
  intros i Hi. rewrite H2 by lia. by apply H1.
Qed.

Lemma keeps_snoc ms m : keeps ms (ms ++ [m]).
Proof.
  split; [rewrite length_app; lia|].
  intros i Hi. apply lookup_app_l. lia.
Qed.

Lemma keeps_replace_last ms m m' : keeps (ms ++ [m]) (ms ++ [m']).
Proof.
  split; [rewrite !length_app; cbn; lia|].
  intros i Hi. rewrite length_app in Hi. cbn in Hi.
  rewrite !lookup_app_l by lia. reflexivity.
Qed.

Lemma keeps_write activeResponse w :
  keeps (messagesOf w) (messagesOf (ChatClient.write activeResponse w)).
Proof.
  destruct (write_messages_cases activeResponse w) as [->|(ms & m & -> & ->)].
  - apply keeps_snoc.
  - apply keeps_replace_last.
Qed.

Lemma runUpdateMessageJob_eq activeResponse draft w :
  ChatClient.runUpdateMessageJob activeResponse draft w
  = (ActiveResponse.mk (StreamingUIMessageState.mk draft)
       (ActiveResponse.abortController activeResponse),
     ChatClient.write
       (ActiveResponse.mk (StreamingUIMessageState.mk draft)
          (ActiveResponse.abortController activeResponse))
       (match activeResponseOf w with
        | Some _ =>
            assign_activeResponse
              (Some (ActiveResponse.mk (StreamingUIMessageState.mk draft)
                       (ActiveResponse.abortController activeResponse))) w
        | None => w
        end)).
Proof. reflexivity. Qed.

Lemma consumeStream_keeps publishes activeResponse w :
  keeps (messagesOf w)
    (messagesOf (snd (ChatClient.consumeStream publishes activeResponse w))).
Proof.
  revert activeResponse w.
  induction publishes as [|draft rest IH]; intros activeResponse w.
  - apply keeps_refl.
  - cbn [ChatClient.consumeStream]. rewrite runUpdateMessageJob_eq.
    eapply keeps_trans; [|apply IH].
    eapply keeps_trans; [|apply keeps_write].
    destruct (activeResponseOf w); apply keeps_refl.
Qed.

Lemma consumeStream_draft publishes activeResponse w :
  StreamingUIMessageState.message
    (ActiveResponse.state
       (fst (ChatClient.consumeStream publishes activeResponse w)))
  = finalDraft (ActiveResponse.state activeResponse) publishes.
Proof.
  revert activeResponse w.
  induction publishes as [|draft rest IH]; intros activeResponse w.
  - reflexivity.
  - cbn [ChatClient.consumeStream]. rewrite runUpdateMessageJob_eq, IH.
    unfold finalDraft. cbn [ActiveResponse.state StreamingUIMessageState.message].
    destruct rest as [|draft' rest]; [reflexivity|].
    rewrite !last_cons. by destruct (last rest).
Qed.

(** Once something has been published, the chat is in status [streaming]
    without an error and its last message is the draft published last. *)
Lemma consumeStream_published publishes activeResponse w :
  publishes ≠ [] →
  let w' := snd (ChatClient.consumeStream publishes activeResponse w) in
  statusOf w' = streaming
  ∧ errorOf w' = None
  ∧ last (messagesOf w') = last publishes.
Proof.
  revert activeResponse w.
  induction publishes as [|draft rest IH]; intros activeResponse w Hne;
    [done|].
  cbn [ChatClient.consumeStream]. rewrite runUpdateMessageJob_eq.
  destruct rest as [|draft' rest].
  - cbn [ChatClient.consumeStream snd].
    destruct (write_status
                (ActiveResponse.mk (StreamingUIMessageState.mk draft)
                   (ActiveResponse.abortController activeResponse))
                (match activeResponseOf w with
                 | Some _ =>
                     assign_activeResponse
                       (Some (ActiveResponse.mk
                                (StreamingUIMessageState.mk draft)
                                (ActiveResponse.abortController activeResponse)))
                       w
                 | None => w
                 end)) as (Hs & He & _).
    split; [exact Hs|]. split; [exact He|]. by rewrite write_last.
  - cbv zeta in IH. rewrite last_cons.
    specialize (IH (ActiveResponse.mk (StreamingUIMessageState.mk draft)
                      (ActiveResponse.abortController activeResponse))).
    destruct (IH (ChatClient.write
                    (ActiveResponse.mk (StreamingUIMessageState.mk draft)
                       (ActiveResponse.abortController activeResponse))
                    (match activeResponseOf w with
                     | Some _ =>
                         assign_activeResponse
                           (Some (ActiveResponse.mk
                                    (StreamingUIMessageState.mk draft)
                                    (ActiveResponse.abortController
                                       activeResponse))) w
                     | None => w
                     end)) ltac:(done)) as (Hs & He & Hl).
    split; [exact Hs|]. split; [exact He|].
    rewrite Hl. rewrite last_cons. by destruct (last rest).
Qed.

Lemma plain_notification_no_callback es :
  Forall (λ e, isPlainNotification e = true) es →
  onErrorCalls es = [] ∧ onFinishCalls es = [].
Proof.
  induction 1 as [|e es He _ [IH1 IH2]]; [split; reflexivity|].
  destruct e; try discriminate. split; assumption.
Qed.

Lemma onErrorCalls_app l1 l2 :
  onErrorCalls (l1 ++ l2) = onErrorCalls l1 ++ onErrorCalls l2.
Proof. apply omap_app. Qed.

Lemma onFinishCalls_app l1 l2 :
  onFinishCalls (l1 ++ l2) = onFinishCalls l1 ++ onFinishCalls l2.
Proof. apply omap_app. Qed.

(** Splitting a log along its appends and its leading effects. *)
Ltac split_log :=
  repeat first
    [ rewrite requestsIn_app | rewrite onErrorCalls_app
    | rewrite onFinishCalls_app
    | progress change (requestsIn (SubmitMessages ?r :: ?l))
        with (r :: requestsIn l)
    | progress change (onErrorCalls (SubmitMessages ?r :: ?l))
        with (onErrorCalls l)
    | progress change (onFinishCalls (SubmitMessages ?r :: ?l))
        with (onFinishCalls l)
    | progress change (requestsIn (OnFinish ?c ?m :: ?l)) with (requestsIn l)
    | progress change (onErrorCalls (OnFinish ?c ?m :: ?l))
        with (onErrorCalls l)
    | progress change (onFinishCalls (OnFinish ?c ?m :: ?l))
        with ((c, m) :: onFinishCalls l)
    | progress change (requestsIn (OnError ?c ?m :: ?l)) with (requestsIn l)
    | progress change (onErrorCalls (OnError ?c ?m :: ?l))
        with ((c, m) :: onErrorCalls l)
    | progress change (onFinishCalls (OnError ?c ?m :: ?l))
        with (onFinishCalls l)
    | progress change (requestsIn []) with (@nil TransportRequest.t)
    | progress change (onErrorCalls []) with (@nil (nat * JsError.t))
    | progress change (onFinishCalls []) with (@nil (nat * UIMessage.t)) ].

(** The world in which the stream of the cycle started by [triggerRequest]
    in [w] has been consumed. *)
Lemma streamed_world C requestType opts w :
  let publishes := Response.publishes (responseTo C requestType opts w) in
  let streamed :=
    afterStream C requestType opts (RSM.setStatus submitted None w) in
  StreamingUIMessageState.message (ActiveResponse.state (fst streamed))
  = finalDraft (ActiveResponse.state (openedResponse C w)) publishes
  ∧ keeps (messagesOf w) (messagesOf (snd streamed))
  ∧ (publishes = [] →
     statusOf (snd streamed) = submitted
     ∧ messagesOf (snd streamed) = messagesOf w)
  ∧ (publishes ≠ [] →
     statusOf (snd streamed) = streaming
     ∧ last (messagesOf (snd streamed)) = last publishes).
Proof.
  cbv zeta. unfold afterStream. rewrite responseTo_submitted.
  split; [|split; [|split]].
  - apply consumeStream_draft.
  - apply (consumeStream_keeps _ _
             (afterSubmit C requestType opts (RSM.setStatus submitted None w))).
  - intros ->. split; reflexivity.
  - intros Hne.
    destruct (consumeStream_published _
                (openedResponse C (RSM.setStatus submitted None w))
                (afterSubmit C requestType opts (RSM.setStatus submitted None w))
                Hne) as (Hs & _ & Hl).
    split; assumption.
Qed.

(** X1: the status turns [streaming] with the first publish of a stream and
    not before: while nothing has been published the chat stays [submitted]
    with its messages unchanged; once something has, the status is
    [streaming] and the chat's last message is the draft published last. *)
Theorem streaming_starts_with_first_publish C requestType opts w :
  let publishes := Response.publishes (responseTo C requestType opts w) in
  let streamed :=
    snd (afterStream C requestType opts (RSM.setStatus submitted None w)) in
  (publishes = [] →
   statusOf streamed = submitted ∧ messagesOf streamed = messagesOf w)
  ∧ (publishes ≠ [] →
     statusOf streamed = streaming
     ∧ last (messagesOf streamed) = last publishes).
Proof.
  cbv zeta.
  destruct (streamed_world C requestType opts w) as (_ & _ & H1 & H2).
  split; assumption.
Qed.

Lemma streaming_starts_with_first_publish_witness :
  let w := Sample.world [Sample.hi] ready None in
  (statusOf (snd (afterStream Sample.idle generate Sample.options
                    (RSM.setStatus submitted None w))) = submitted
   ∧ messagesOf (snd (afterStream Sample.idle generate Sample.options
                        (RSM.setStatus submitted None w))) = [Sample.hi])
  ∧ (statusOf (snd (afterStream Sample.hello generate Sample.options
                      (RSM.setStatus submitted None w))) = streaming
     ∧ last (messagesOf (snd (afterStream Sample.hello generate Sample.options
                                (RSM.setStatus submitted None w))))
       = last (Response.publishes
                 (responseTo Sample.hello generate Sample.options w))).
Proof.
  cbv zeta. split.
  - apply (proj1 (streaming_starts_with_first_publish Sample.idle generate
                    Sample.options (Sample.world [Sample.hi] ready None))).
    reflexivity.
  - apply (proj2 (streaming_starts_with_first_publish Sample.hello generate
                    Sample.options (Sample.world [Sample.hi] ready None))).
    discriminate.
Defined.

(** X2: a request cycle whose stream finishes leaves the chat [ready],
    without an error and without an active response; one request was sent,
    [onError] was not called, and [onFinish], when given, was called exactly
    once, with the final draft (the draft published last, or the one the
    response started with).  When anything was published, that draft is the
    chat's last message. *)
Theorem finished_cycle_spec C requestType opts w :
  Response.result (responseTo C requestType opts w) = StreamFinished →
  let publishes := Response.publishes (responseTo C requestType opts w) in
  let final := finalDraft (ActiveResponse.state (openedResponse C w)) publishes in
  let w1 := fst (ChatClient.requestCycle C requestType opts
                   (RSM.setStatus submitted None w)) in
  statusOf w1 = ready
  ∧ errorOf w1 = None
  ∧ activeResponseOf w1 = None
  ∧ (∃ es, logOf w1 = logOf w ++ es
           ∧ requestsIn es = [requestFrom requestType opts w]
           ∧ onErrorCalls es = []
           ∧ onFinishCalls es
             = match CallOptions.onFinish opts with
               | Some cb => [(cb, final)]
               | None => []
               end)
  ∧ (publishes ≠ [] → last (messagesOf w1) = Some final).
Proof.
  intros Hres. cbv zeta.
  rewrite requestCycle_eq, responseTo_submitted, Hres.
  destruct (streamed_world C requestType opts w) as (Hdraft & _ & _ & Hpub).
  destruct (submitted_stream_log C requestType opts w)
    as (es1 & es2 & Hl & Hes1 & Hes2).
  destruct (afterStream C requestType opts (RSM.setStatus submitted None w))
    as [activeResponse ws].
  cbn [fst snd] in *.
  destruct (plain_notification_no_callback es1 Hes1) as [He1 Hf1].
  destruct (plain_notification_no_callback es2 Hes2) as [He2 Hf2].
  split; [reflexivity|]. split; [reflexivity|]. split; [reflexivity|]. split.
  - destruct (CallOptions.onFinish opts) as [cb|].
    + eexists. split.
      * change (logOf (RSM.setActiveResponse None (RSM.setStatus ready None
                         (record [OnFinish cb (StreamingUIMessageState.message
                            (ActiveResponse.state activeResponse))] ws))))
          with ((logOf ws ++ [OnFinish cb (StreamingUIMessageState.message
                                (ActiveResponse.state activeResponse))])
                  ++ map (λ s, OnChatChanged s
                            (ChatStoreEvent.mk chat_status_changed (idOf ws)
                               None))
                       (Runtime.subscribers (World.rt ws))).
        rewrite Hl, <- !app_assoc. reflexivity.
      * destruct (plain_notification_no_callback _
                    (notifications_plain
                       (ChatStoreEvent.mk chat_status_changed (idOf ws) None)
                       (Runtime.subscribers (World.rt ws)) eq_refl))
          as [He3 Hf3].
        split_log.
        rewrite (plain_notification_no_request es1 Hes1),
          (plain_notification_no_request es2 Hes2), requestsIn_notifications.
        rewrite He1, He2, He3, Hf1, Hf2, Hf3, Hdraft.
        repeat split.
    + eexists. split.
      * change (logOf (RSM.setActiveResponse None (RSM.setStatus ready None ws)))
          with (logOf ws
                  ++ map (λ s, OnChatChanged s
                            (ChatStoreEvent.mk chat_status_changed (idOf ws)
                               None))
                       (Runtime.subscribers (World.rt ws))).
        rewrite Hl, <- !app_assoc. reflexivity.
      * destruct (plain_notification_no_callback _
                    (notifications_plain
                       (ChatStoreEvent.mk chat_status_changed (idOf ws) None)
                       (Runtime.subscribers (World.rt ws)) eq_refl))
          as [He3 Hf3].
        split_log.
        rewrite (plain_notification_no_request es1 Hes1),
          (plain_notification_no_request es2 Hes2), requestsIn_notifications.
        rewrite He1, He2, He3, Hf1, Hf2, Hf3.
        repeat split.
  - intros Hne. destruct (Hpub Hne) as [_ Hlast].
    assert (Hm : ∀ x, messagesOf (RSM.setActiveResponse None
                                    (RSM.setStatus ready None x))
                      = messagesOf x) by reflexivity.
    rewrite Hm.
    assert (Hws : last (messagesOf ws)
                  = Some (finalDraft (ActiveResponse.state (openedResponse C w))
                            (Response.publishes
                               (responseTo C requestType opts w)))).
    { rewrite Hlast. unfold finalDraft.
      destruct (last (Response.publishes _)) as [d|] eqn:Hd; [reflexivity|].
      apply last_None in Hd. contradiction. }
    destruct (CallOptions.onFinish opts); exact Hws.
Qed.

Lemma finished_cycle_spec_witness :
  let w := Sample.world [Sample.hi] ready None in
  let w1 := fst (ChatClient.requestCycle Sample.hello generate Sample.options
                   (RSM.setStatus submitted None w)) in
  statusOf w1 = ready
  ∧ errorOf w1 = None
  ∧ activeResponseOf w1 = None
  ∧ (∃ es, logOf w1 = logOf w ++ es
           ∧ requestsIn es = [requestFrom generate Sample.options w]
           ∧ onErrorCalls es = []
           ∧ onFinishCalls es
             = [(2%nat, UIMessage.mk "msg-0" assistant [TextPart "Hello"])])
  ∧ (Response.publishes (responseTo Sample.hello generate Sample.options w)
     ≠ [] →
     last (messagesOf w1)
     = Some (UIMessage.mk "msg-0" assistant [TextPart "Hello"])).
Proof.
  apply (finished_cycle_spec Sample.hello generate Sample.options
           (Sample.world [Sample.hi] ready None)).
  reflexivity.
Defined.

(** X3: a request cycle whose stream throws anything but an abort error
    calls [onError] exactly once with the thrown value when [onError] is
    given and the value is an [Error], and not at all otherwise; [onFinish]
    is not called.  What was published before the failure stays: the
    messages present before are kept, and the draft published last is the
    chat's last message. *)
Theorem failed_cycle_callbacks C requestType opts w err :
  Response.result (responseTo C requestType opts w) = StreamThrew err →
  JsError.name err ≠ "AbortError"%string →
  let publishes := Response.publishes (responseTo C requestType opts w) in
  let w1 := fst (ChatClient.requestCycle C requestType opts
                   (RSM.setStatus submitted None w)) in
  (∃ es, logOf w1 = logOf w ++ es
         ∧ onFinishCalls es = []
         ∧ onErrorCalls es
           = match CallOptions.onError opts with
             | Some cb => if JsError.instanceofError err then [(cb, err)] else []
             | None => []
             end)
  ∧ keeps (messagesOf w) (messagesOf w1)
  ∧ (publishes ≠ [] → last (messagesOf w1) = last publishes).
Proof.
  intros Hres Hname. cbv zeta.
  rewrite requestCycle_eq, responseTo_submitted, Hres.
  destruct (streamed_world C requestType opts w) as (_ & Hkeeps & _ & Hpub).
  destruct (submitted_stream_log C requestType opts w)
    as (es1 & es2 & Hl & Hes1 & Hes2).
  destruct (afterStream C requestType opts (RSM.setStatus submitted None w))
    as [activeResponse ws].
  cbn [fst snd] in *.
  destruct (String.eqb_spec (JsError.name err) "AbortError"); [done|].
  cbn [fst].
  destruct (plain_notification_no_callback es1 Hes1) as [He1 Hf1].
  destruct (plain_notification_no_callback es2 Hes2) as [He2 Hf2].
  assert (Hlog : ∀ x,
    logOf (RSM.setActiveResponse None (RSM.setStatus error (Some err) x))
    = logOf x ++ map (λ s, OnChatChanged s
                             (ChatStoreEvent.mk chat_status_changed (idOf x)
                                (Some err)))
                   (Runtime.subscribers (World.rt x))) by reflexivity.
  assert (Hnot : ∀ (ev : ChatStoreEvent.t) l,
    onErrorCalls (map (λ s, OnChatChanged s ev) l) = []
    ∧ onFinishCalls (map (λ s, OnChatChanged s ev) l) = []).
  { intros ev l. induction l as [|s l IH]; [split; reflexivity|exact IH]. }
  assert (Hm : ∀ x, messagesOf (RSM.setActiveResponse None
                                  (RSM.setStatus error (Some err) x))
                    = messagesOf x) by reflexivity.
  split; [|split].
  - rewrite Hlog.
    destruct (CallOptions.onError opts) as [cb|];
      [destruct (JsError.instanceofError err)|].
    + change (logOf (record [OnError cb err] ws))
        with (logOf ws ++ [OnError cb err]).
      eexists. split; [rewrite Hl, <- !app_assoc; reflexivity|].
      split_log.
      rewrite He1, He2, Hf1, Hf2, (proj1 (Hnot _ _)), (proj2 (Hnot _ _)).
      split; reflexivity.
    + eexists. split; [rewrite Hl, <- !app_assoc; reflexivity|].
      split_log.
      rewrite He1, He2, Hf1, Hf2, (proj1 (Hnot _ _)), (proj2 (Hnot _ _)).
      split; reflexivity.
    + eexists. split; [rewrite Hl, <- !app_assoc; reflexivity|].
      split_log.
      rewrite He1, He2, Hf1, Hf2, (proj1 (Hnot _ _)), (proj2 (Hnot _ _)).
      split; reflexivity.
  - rewrite Hm.
    destruct (CallOptions.onError opts) as [cb|];
      [destruct (JsError.instanceofError err)|]; exact Hkeeps.
  - intros Hne. rewrite Hm.
    destruct (CallOptions.onError opts) as [cb|];
      [destruct (JsError.instanceofError err)|]; exact (proj2 (Hpub Hne)).
Qed.

Lemma failed_cycle_callbacks_witness :
  let w := Sample.world [Sample.hi] ready None in
  let w1 := fst (ChatClient.requestCycle Sample.flaky generate Sample.options
                   (RSM.setStatus submitted None w)) in
  (∃ es, logOf w1 = logOf w ++ es
         ∧ onFinishCalls es = []
         ∧ onErrorCalls es = [(1%nat, Sample.boom)])
  ∧ keeps (messagesOf w) (messagesOf w1)
  ∧ (Response.publishes (responseTo Sample.flaky generate Sample.options w)
     ≠ [] →
     last (messagesOf w1)
     = last (Response.publishes
               (responseTo Sample.flaky generate Sample.options w))).
Proof.
  apply (failed_cycle_callbacks Sample.flaky generate Sample.options
           (Sample.world [Sample.hi] ready None) Sample.boom);
    [reflexivity|discriminate].
Defined.

(* ===================================================================== *)
(** ** What every run of [triggerRequest] keeps *)
(* ===================================================================== *)

Lemma consumeStream_busy publishes activeResponse w :
  statusOf w = submitted ∨ statusOf w = streaming →
  errorOf w = None →
  let w' := snd (ChatClient.consumeStream publishes activeResponse w) in
  (statusOf w' = submitted ∨ statusOf w' = streaming) ∧ errorOf w' = None.
Proof.
  intros Hs He. destruct publishes as [|draft rest]; [by split|].
  destruct (consumeStream_published (draft :: rest) activeResponse w
              ltac:(done)) as (Hs' & He' & _).
  split; [by right|exact He'].
Qed.

(** How a cycle leaves the chat: at rest, unless its [catch] block
    threw. *)
Lemma requestCycle_end C requestType opts w :
  let run := ChatClient.requestCycle C requestType opts
               (RSM.setStatus submitted None w) in
  match snd run with
  | CatchThrew _ => leftBusy (fst run)
  | _ => atRest (fst run)
  end.
Proof.
  cbv zeta. rewrite requestCycle_eq. unfold afterStream.
  pose proof (consumeStream_busy
                (Response.publishes
                   (responseTo C requestType opts
                      (RSM.setStatus submitted None w)))
                (openedResponse C (RSM.setStatus submitted None w))
                (afterSubmit C requestType opts
                   (RSM.setStatus submitted None w))
                (or_introl eq_refl) eq_refl) as Hbusy.
  cbv zeta in Hbusy.
  destruct (ChatClient.consumeStream _ _ _) as [activeResponse ws].
  cbn [snd] in Hbusy.
  destruct (Response.result _) as [|err|typeError];
    [|destruct (String.eqb _ _)|]; cbn [fst snd].
  - split; [reflexivity|]. left. split; reflexivity.
  - split; [reflexivity|]. left. split; reflexivity.
  - split; [reflexivity|]. right. exists err. split; reflexivity.
  - split; [reflexivity|]. exact Hbusy.
Qed.

Lemma requestCycle_keeps C requestType opts w :
  keeps (messagesOf w)
    (messagesOf (fst (ChatClient.requestCycle C requestType opts w))).
Proof.
  rewrite requestCycle_eq.
  pose proof (consumeStream_keeps
                (Response.publishes (responseTo C requestType opts w))
                (openedResponse C w) (afterSubmit C requestType opts w))
    as Hk.
  change (messagesOf (afterSubmit C requestType opts w))
    with (messagesOf w) in Hk.
  fold (afterStream C requestType opts w) in Hk.
  destruct (afterStream C requestType opts w) as [activeResponse ws].
  cbn [snd] in Hk.
  destruct (Response.result _) as [|err|typeError];
    [|destruct (String.eqb _ _)|]; cbn [fst].
  - destruct (CallOptions.onFinish opts); exact Hk.
  - exact Hk.
  - destruct (CallOptions.onError opts);
      [destruct (JsError.instanceofError err)|]; exact Hk.
  - exact Hk.
Qed.

Lemma requestCycle_id C requestType opts w :
  idOf (fst (ChatClient.requestCycle C requestType opts w)) = idOf w.
Proof.
  rewrite requestCycle_eq.
  destruct (quiet_consumeStream
              (Response.publishes (responseTo C requestType opts w))
              (openedResponse C w) (afterSubmit C requestType opts w))
    as (Hid & _).
  change (idOf (afterSubmit C requestType opts w)) with (idOf w) in Hid.
  fold (afterStream C requestType opts w) in Hid.
  destruct (afterStream C requestType opts w) as [activeResponse ws].
  cbn [snd] in Hid.
  destruct (Response.result _) as [|err|typeError];
    [|destruct (String.eqb _ _)|]; cbn [fst].
  - destruct (CallOptions.onFinish opts); exact Hid.
  - exact Hid.
  - destruct (CallOptions.onError opts);
      [destruct (JsError.instanceofError err)|]; exact Hid.
  - exact Hid.
Qed.


(** X23: when the transport or the stream throws [null] or [undefined],
    the call of [triggerRequest] is rejected with the [TypeError] that
    reading [err.name] raises.  The active response is cleared, but the
    status is not set again: it stays [submitted] when nothing had been
    published and [streaming] otherwise, and no error is stored.  One
    request was sent, neither [onError] nor [onFinish] was called, no
    notification carries an error, and no further request follows. *)
Theorem thrown_null_rejects_the_call C fuel requestType opts w typeError :
  Response.result (responseTo C requestType opts w)
  = StreamThrewNullish typeError →
  let publishes := Response.publishes (responseTo C requestType opts w) in
  let run := ChatClient.triggerRequest C (S fuel) requestType opts w in
  snd run = Rejected typeError
  ∧ activeResponseOf (fst run) = None
  ∧ statusOf (fst run) = (if decide (publishes = []) then submitted
                          else streaming)
  ∧ errorOf (fst run) = None
  ∧ keeps (messagesOf w) (messagesOf (fst run))
  ∧ ∃ es, logOf (fst run) = logOf w ++ es
          ∧ requestsIn es = [requestFrom requestType opts w]
          ∧ onErrorCalls es = []
          ∧ onFinishCalls es = []
          ∧ Forall (λ e, surfacesError e = false) es.
Proof.
  intros Hres. cbv zeta.
  rewrite triggerRequest_S, requestCycle_eq, responseTo_submitted, Hres.
  destruct (streamed_world C requestType opts w) as (_ & Hkeeps & Hnone & Hsome).
  destruct (submitted_stream_log C requestType opts w)
    as (es1 & es2 & Hl & Hes1 & Hes2).
  pose proof (consumeStream_busy
                (Response.publishes
                   (responseTo C requestType opts
                      (RSM.setStatus submitted None w)))
                (openedResponse C (RSM.setStatus submitted None w))
                (afterSubmit C requestType opts
                   (RSM.setStatus submitted None w))
                (or_introl eq_refl) eq_refl) as [_ Herr].
  fold (afterStream C requestType opts (RSM.setStatus submitted None w))
    in Herr.
  destruct (afterStream C requestType opts (RSM.setStatus submitted None w))
    as [activeResponse ws].
  cbn [fst snd] in *.
  split; [reflexivity|]. split; [reflexivity|].
  split; [|split; [exact Herr|split; [exact Hkeeps|]]].
  - change (statusOf (RSM.setActiveResponse None ws)) with (statusOf ws).
    destruct (decide _) as [Hp|Hp].
    + exact (proj1 (Hnone Hp)).
    + exact (proj1 (Hsome Hp)).
  - change (logOf (RSM.setActiveResponse None ws)) with (logOf ws).
    destruct (plain_notification_no_callback es1 Hes1) as [He1 Hf1].
    destruct (plain_notification_no_callback es2 Hes2) as [He2 Hf2].
    exists (es1 ++ SubmitMessages (requestFrom requestType opts w) :: es2).
    split; [exact Hl|].
    split_log.
    rewrite (plain_notification_no_request es1 Hes1),
      (plain_notification_no_request es2 Hes2), He1, He2, Hf1, Hf2.
    split; [reflexivity|]. split; [reflexivity|]. split; [reflexivity|].
    apply Forall_app. split; [by apply plain_notification_no_error|].
    apply Forall_cons. split; [reflexivity|].
    by apply plain_notification_no_error.
Qed.

Lemma thrown_null_rejects_the_call_witness :
  let w := Sample.world [Sample.hi] ready None in
  let run := ChatClient.triggerRequest Sample.thrownNull 3 generate
               Sample.options w in
  snd run = Rejected Sample.typeError
  ∧ activeResponseOf (fst run) = None
  ∧ statusOf (fst run) = streaming
  ∧ errorOf (fst run) = None
  ∧ keeps (messagesOf w) (messagesOf (fst run))
  ∧ ∃ es, logOf (fst run) = logOf w ++ es
          ∧ requestsIn es = [requestFrom generate Sample.options w]
          ∧ onErrorCalls es = []
          ∧ onFinishCalls es = []
          ∧ Forall (λ e, surfacesError e = false) es.
Proof.
  apply (thrown_null_rejects_the_call Sample.thrownNull 2 generate
           Sample.options (Sample.world [Sample.hi] ready None)
           Sample.typeError).
  reflexivity.
Defined.

(** X5: a run of [triggerRequest] never shortens the message list and
    never touches a message before the last one it found: every message
    but the last that was there at the start is still at its place at the
    end, whatever the streams published and however they ended. *)
Theorem triggerRequest_keeps_messages C fuel requestType opts w :
  keeps (messagesOf w)
    (messagesOf (fst (ChatClient.triggerRequest C fuel requestType opts w))).
Proof.
  revert w. induction fuel as [|fuel IH]; intros w.
  - apply keeps_refl.
  - rewrite triggerRequest_S.
    pose proof (requestCycle_keeps C requestType opts
                  (RSM.setStatus submitted None w)) as Hk.
    change (messagesOf (RSM.setStatus submitted None w))
      with (messagesOf w) in Hk.
    destruct (ChatClient.requestCycle _ _ _ _) as [w1 [| |err]];
      [exact Hk| |exact Hk].
    destruct (policyAfter C w w1); [|exact Hk].
    eapply keeps_trans; [exact Hk|apply IH].
Qed.

Lemma keeps_snoc_prefix ms m after :
  keeps (ms ++ [m]) after → take (length ms) after = ms.
Proof.
  intros [Hlen Hk]. rewrite length_app in Hlen, Hk. cbn [length] in Hlen, Hk.
  apply list_eq. intros i.
  destruct (decide (i < length ms)%nat) as [Hi|Hi].
  - rewrite lookup_take_lt by lia. rewrite Hk by lia.
    apply lookup_app_l. lia.
  - rewrite lookup_take_ge by lia. symmetry. apply lookup_ge_None. lia.
Qed.

Lemma triggerRequest_keeps_from C fuel requestType opts ms w :
  keeps ms (messagesOf w) →
  keeps ms
    (messagesOf (fst (ChatClient.triggerRequest C fuel requestType opts w))).
Proof.
  revert w. induction fuel as [|fuel IH]; intros w Hms; [exact Hms|].
  rewrite triggerRequest_S.
  pose proof (requestCycle_keeps C requestType opts
                (RSM.setStatus submitted None w)) as Hk.
  change (messagesOf (RSM.setStatus submitted None w))
    with (messagesOf w) in Hk.
  destruct (ChatClient.requestCycle _ _ _ _) as [w1 [| |err]];
    [exact (keeps_trans _ _ _ Hms Hk)| |exact (keeps_trans _ _ _ Hms Hk)].
  destruct (policyAfter C w w1);
    [apply IH|]; exact (keeps_trans _ _ _ Hms Hk).
Qed.

(** X6: all requests of one run of [triggerRequest], the first and the
    automatic continuations alike, go to the transport with the chat's own
    id and with the request type, body and headers of the call; a run of
    [fuel] cycles sends at most [fuel] of them. *)
Theorem every_request_carries_the_call C fuel requestType opts w :
  ∃ new,
    requestsIn (logOf (fst (ChatClient.triggerRequest C fuel requestType opts w)))
    = requestsIn (logOf w) ++ new
    ∧ (length new ≤ fuel)%nat
    ∧ Forall (λ r, TransportRequest.chatId r = idOf w
                   ∧ TransportRequest.requestType r = requestType
                   ∧ TransportRequest.body r = CallOptions.body opts
                   ∧ TransportRequest.headers r = CallOptions.headers opts)
        new.
Proof.
  revert w. induction fuel as [|fuel IH]; intros w.
  - exists []. split; [by rewrite app_nil_r|]. split; [reflexivity|constructor].
  - rewrite triggerRequest_S.
    pose proof (requestCycle_requests C requestType opts
                  (RSM.setStatus submitted None w)) as Hreq.
    rewrite (quiet_requests _ _ (quiet_setStatus submitted w)) in Hreq.
    pose proof (requestCycle_id C requestType opts
                  (RSM.setStatus submitted None w)) as Hid.
    change (idOf (RSM.setStatus submitted None w)) with (idOf w) in Hid.
    change (requestFrom requestType opts (RSM.setStatus submitted None w))
      with (requestFrom requestType opts w) in Hreq.
    assert (Hone : Forall
              (λ r, TransportRequest.chatId r = idOf w
                    ∧ TransportRequest.requestType r = requestType
                    ∧ TransportRequest.body r = CallOptions.body opts
                    ∧ TransportRequest.headers r = CallOptions.headers opts)
              [requestFrom requestType opts w])
      by (repeat constructor).
    destruct (ChatClient.requestCycle _ _ _ _) as [w1 [| |err]];
      cbn [fst] in *.
    + exists [requestFrom requestType opts w].
      split; [exact Hreq|]. split; [cbn; lia|exact Hone].
    + destruct (policyAfter C w w1).
      * destruct (IH w1) as (new & Hnew & Hlen & Hall).
        exists (requestFrom requestType opts w :: new).
        split; [rewrite Hnew, Hreq, <- app_assoc; reflexivity|].
        split; [cbn; lia|].
        apply Forall_cons. split; [repeat split|].
        rewrite Hid in Hall. exact Hall.
      * exists [requestFrom requestType opts w].
        split; [exact Hreq|]. split; [cbn; lia|exact Hone].
    + exists [requestFrom requestType opts w].
      split; [exact Hreq|]. split; [cbn; lia|exact Hone].
Qed.


(** A run of [triggerRequest] right after a message has been pushed. *)
Lemma pushed_run C opts w n m w0 :
  messagesOf w0 = messagesOf w →
  idOf w0 = idOf w →
  Runtime.controllers (World.rt w0) = Runtime.controllers (World.rt w) →
  requestsIn (logOf w0) = requestsIn (logOf w) →
  (∃ rest,
     requestsIn (logOf (fst (ChatClient.triggerRequest C (S n) generate opts
                               (RSM.pushMessage m w0))))
     = requestsIn (logOf w)
         ++ TransportRequest.mk (idOf w) (messagesOf w ++ [m])
              (CallOptions.body opts) (CallOptions.headers opts)
              (Some (Runtime.controllers (World.rt w))) generate
         :: rest)
  ∧ keeps (messagesOf w ++ [m])
      (messagesOf (fst (ChatClient.triggerRequest C n generate opts
                          (RSM.pushMessage m w0)))).
Proof.
  intros Hms Hid Hctl Hreq. split.
  - destruct (triggerRequest_first_request C n generate opts
                (RSM.pushMessage m w0)) as [rest Hrest].
    exists rest. rewrite Hrest.
    rewrite (quiet_requests _ _ (quiet_pushMessage m w0)), Hreq.
    unfold requestFrom. rewrite pushMessage_messages, Hms.
    change (idOf (RSM.pushMessage m w0)) with (idOf w0).
    change (Runtime.controllers (World.rt (RSM.pushMessage m w0)))
      with (Runtime.controllers (World.rt w0)).
    rewrite Hid, Hctl. reflexivity.
  - rewrite <- Hms, <- pushMessage_messages.
    apply triggerRequest_keeps_from, keeps_refl.
Qed.

(** X7: [submitMessage] appends the message to the chat, under its own id
    when it has one and under a freshly generated id otherwise, and the
    first request carries the old messages followed by the new one.  At the
    end of the run the old messages are all still there, in order, as the
    beginning of a longer list. *)
Theorem submitMessage_spec C fuel message opts w :
  let id := match CreateUIMessage.id message with
            | Some id => id
            | None => Collaborators.generateId C (Runtime.ids (World.rt w))
            end in
  let m := UIMessage.mk id (CreateUIMessage.role message)
             (CreateUIMessage.parts message) in
  (∃ rest,
     requestsIn (logOf (fst (ChatClient.submitMessage C (S fuel) message opts w)))
     = requestsIn (logOf w)
         ++ TransportRequest.mk (idOf w) (messagesOf w ++ [m])
              (CallOptions.body opts) (CallOptions.headers opts)
              (Some (Runtime.controllers (World.rt w))) generate
         :: rest)
  ∧ take (length (messagesOf w))
      (messagesOf (fst (ChatClient.submitMessage C fuel message opts w)))
    = messagesOf w
  ∧ (length (messagesOf w)
     < length (messagesOf (fst (ChatClient.submitMessage C fuel message opts
                                  w))))%nat.
Proof.
  cbv zeta.
  pose proof (pushed_run C opts w) as Hrun.
  unfold ChatClient.submitMessage.
  destruct (CreateUIMessage.id message) as [id|]; cbn [ChatClient.generateId].
  - destruct (Hrun fuel (UIMessage.mk id (CreateUIMessage.role message)
                           (CreateUIMessage.parts message)) w
                eq_refl eq_refl eq_refl eq_refl) as [Hfirst Hk].
    split; [exact Hfirst|]. split.
    + apply (keeps_snoc_prefix _ _ _ Hk).
    + destruct Hk as [Hlen _]. rewrite length_app in Hlen.
      cbn [length] in Hlen. lia.
  - match goal with
    | |- context [RSM.pushMessage ?m ?w0] =>
        destruct (Hrun fuel m w0 eq_refl eq_refl eq_refl eq_refl)
          as [Hfirst Hk]
    end.
    split; [exact Hfirst|]. split.
    + apply (keeps_snoc_prefix _ _ _ Hk).
    + destruct Hk as [Hlen _]. rewrite length_app in Hlen.
      cbn [length] in Hlen. lia.
Qed.

(** X8: [resumeStream] asks the transport to resume with the chat's
    messages exactly as they are, nothing appended and nothing removed
    before the request, and at the end of the run every message but the
    last is still at its place. *)
Theorem resumeStream_spec C fuel opts w :
  (∃ rest,
     requestsIn (logOf (fst (ChatClient.resumeStream C (S fuel) opts w)))
     = requestsIn (logOf w)
         ++ TransportRequest.mk (idOf w) (messagesOf w)
              (CallOptions.body opts) (CallOptions.headers opts)
              (Some (Runtime.controllers (World.rt w))) resume
         :: rest)
  ∧ keeps (messagesOf w)
      (messagesOf (fst (ChatClient.resumeStream C fuel opts w))).
Proof.
  unfold ChatClient.resumeStream. split.
  - destruct (triggerRequest_first_request C fuel resume opts w)
      as [rest Hrest].
    exists rest. exact Hrest.
  - apply triggerRequest_keeps_from, keeps_refl.
Qed.

(* ===================================================================== *)
(** ** More about the chat store *)
(* ===================================================================== *)

Lemma triggerRequest_id C fuel requestType opts w :
  idOf (fst (ChatClient.triggerRequest C fuel requestType opts w)) = idOf w.
Proof.
  revert w. induction fuel as [|fuel IH]; intros w; [reflexivity|].
  rewrite triggerRequest_S.
  pose proof (requestCycle_id C requestType opts
                (RSM.setStatus submitted None w)) as Hid.
  change (idOf (RSM.setStatus submitted None w)) with (idOf w) in Hid.
  destruct (ChatClient.requestCycle _ _ _ _) as [w1 [| |err]];
    [exact Hid| |exact Hid].
  destruct (policyAfter C w w1); [|exact Hid].
  rewrite IH. exact Hid.
Qed.

Lemma triggerRequestInJob_id C fuel requestType opts w :
  idOf (fst (ChatClient.triggerRequestInJob C fuel requestType opts w))
  = idOf w.
Proof.
  revert w. induction fuel as [|fuel IH]; intros w; [reflexivity|].
  rewrite triggerRequestInJob_S.
  assert (Hid : idOf (fst (ChatClient.requestCycleInJob C requestType opts
                             (RSM.setStatus submitted None w))) = idOf w).
  { destruct (requestCycleInJob_cases C requestType opts
                (RSM.setStatus submitted None w)) as [[_ ->]|[_ ->]];
      cbn [fst]; [rewrite requestCycle_id|]; reflexivity. }
  destruct (ChatClient.requestCycleInJob _ _ _ _) as [w1 [[| |err]|]];
    cbn [fst] in *; [exact Hid| |exact Hid|exact Hid].
  destruct (policyAfter C w w1); [|exact Hid].
  rewrite IH. exact Hid.
Qed.

Lemma onClient_lookup {A} id (method : World.t → World.t * A)
    (st : ChatStore.t) :
  ChatStore.chats (fst (ChatStore.onClient id method st)) !! id
  = Some (World.chat
            (fst (method (World.mk (fst (ChatStore.getClient id st))
                            (ChatStore.rt st))))).
Proof.
  unfold ChatStore.onClient, ChatStore.getClient.
  destruct (ChatStore.chats st !! id) as [c|]; cbn [fst];
    destruct (method _) as [w a]; apply lookup_insert_eq.
Qed.

Lemma onClient_other {A} id id' (method : World.t → World.t * A)
    (st : ChatStore.t) :
  id' ≠ id →
  ChatStore.chats (fst (ChatStore.onClient id method st)) !! id'
  = ChatStore.chats st !! id'.
Proof.
  intros Hne. unfold ChatStore.onClient, ChatStore.getClient.
  destruct (ChatStore.chats st !! id) as [c|];
    destruct (method _) as [w a]; cbn;
    rewrite ?lookup_insert_ne by done; reflexivity.
Qed.

Lemma storeAfter_other C call id id' st :
  id' ≠ id →
  ChatStore.chats (storeAfter C call id st) !! id' = ChatStore.chats st !! id'.
Proof. intros Hne. destruct call; by apply onClient_other. Qed.

(** X9: an accessor or operation called for one chat id leaves every other
    chat of the store exactly as it was; and when the chat it is called
    for exists, the store neither gains nor loses a chat. *)
Theorem store_call_touches_one_chat C (call : StoreCall) id (st : ChatStore.t) :
  (∀ id', id' ≠ id →
     ChatStore.chats (storeAfter C call id st) !! id'
     = ChatStore.chats st !! id')
  ∧ (ChatStore.hasChat id st = true →
     ChatStore.chatCount (storeAfter C call id st) = ChatStore.chatCount st
     ∧ ChatStore.hasChat id (storeAfter C call id st) = true).
Proof.
  split.
  - intros id' Hne. by apply storeAfter_other.
  - intros Hhas. apply bool_decide_eq_true in Hhas.
    assert (Hdom : dom (ChatStore.chats (storeAfter C call id st))
                   = dom (ChatStore.chats st)).
    { rewrite storeAfter_dom. apply elem_of_dom in Hhas.
      apply (anti_symm (⊆)).
      - intros x [->%elem_of_singleton|Hx]%elem_of_union; assumption.
      - apply union_subseteq_r. }
    split.
    + unfold ChatStore.chatCount. by rewrite <- !size_dom, Hdom.
    + apply bool_decide_eq_true. apply elem_of_dom. rewrite Hdom.
      by apply elem_of_dom.
Qed.

Lemma store_call_touches_one_chat_witness :
  ChatStore.chats
    (storeAfter Sample.idle
       (SubmitMessage 3 (CreateUIMessage.mk None user [TextPart "hi"])
          Sample.options) "other" Sample.store) !! "chat"
  = ChatStore.chats Sample.store !! "chat"
  ∧ ChatStore.chatCount
      (storeAfter Sample.idle (ResubmitLastUserMessage 3 Sample.options) "chat"
         Sample.store)
    = ChatStore.chatCount Sample.store.
Proof.
  split.
  - apply (proj1 (store_call_touches_one_chat Sample.idle
                    (SubmitMessage 3
                       (CreateUIMessage.mk None user [TextPart "hi"])
                       Sample.options) "other" Sample.store)).
    discriminate.
  - apply (proj2 (store_call_touches_one_chat Sample.idle
                    (ResubmitLastUserMessage 3 Sample.options) "chat"
                    Sample.store)).
    reflexivity.
Defined.

Lemma getClient_id id (st : ChatStore.t) :
  keyed st → ChatState.id (fst (ChatStore.getClient id st)) = id.
Proof.
  intros Hk. unfold ChatStore.getClient.
  destruct (ChatStore.chats st !! id) as [c|] eqn:Hc; [|reflexivity].
  exact (Hk id c Hc).
Qed.

Lemma onClient_keyed {A} id (method : World.t → World.t * A)
    (st : ChatStore.t) :
  (∀ w, idOf (fst (method w)) = idOf w) →
  keyed st → keyed (fst (ChatStore.onClient id method st)).
Proof.
  intros Hm Hk k c Hc.
  destruct (decide (k = id)) as [->|Hne].
  - rewrite onClient_lookup in Hc. injection Hc as <-.
    change (ChatState.id (World.chat ?w)) with (idOf w).
    rewrite Hm. by apply getClient_id.
  - rewrite onClient_other in Hc by done. exact (Hk k c Hc).
Qed.

Lemma removeAssistantResponse_id w :
  idOf (fst (ChatClient.removeAssistantResponse w)) = idOf w.
Proof.
  unfold ChatClient.removeAssistantResponse.
  destruct (ChatClient.lastMessage w) as [m|]; [|reflexivity].
  destruct (decide _); reflexivity.
Qed.

Lemma stopStream_id w : idOf (ChatClient.stopStream w) = idOf w.
Proof.
  unfold ChatClient.stopStream.
  destruct (decide _); [reflexivity|].
  destruct (activeResponseOf w) as [a|]; [|reflexivity].
  destruct (ActiveResponse.abortController a); reflexivity.
Qed.

Lemma submitMessage_id C fuel message opts w :
  idOf (fst (ChatClient.submitMessage C fuel message opts w)) = idOf w.
Proof.
  unfold ChatClient.submitMessage.
  destruct (CreateUIMessage.id message); cbn [ChatClient.generateId];
    rewrite triggerRequest_id; reflexivity.
Qed.

Lemma resubmitLastUserMessage_id C fuel opts w :
  idOf (fst (ChatClient.resubmitLastUserMessage C fuel opts w)) = idOf w.
Proof.
  unfold ChatClient.resubmitLastUserMessage.
  destruct (ChatClient.lastMessage w) as [m|]; [|reflexivity].
  rewrite triggerRequest_id. destruct (decide _); reflexivity.
Qed.

Lemma addToolResult_id C fuel toolCallId result w :
  idOf (fst (ChatClient.addToolResult C fuel toolCallId result w)) = idOf w.
Proof.
  unfold ChatClient.addToolResult.
  destruct (decide _); [reflexivity|].
  destruct (Collaborators.isAssistantMessageWithCompletedToolCalls _ _);
    [|reflexivity].
  rewrite triggerRequestInJob_id. reflexivity.
Qed.

(** X10: the store files every chat under the chat's own id, and keeps
    doing so: this holds for a new store, and [addChat] and every per-id
    accessor and operation preserve it.  So the [chatId] of a notification
    is always the key under which the store holds the chat. *)
Theorem store_chats_stay_keyed C :
  (∀ chats, keyed (ChatStore.new chats))
  ∧ (∀ st id messages, keyed st → keyed (ChatStore.addChat id messages st))
  ∧ (∀ st call id, keyed st → keyed (storeAfter C call id st)).
Proof.
  split; [|split].
  - intros chats id c Hc. unfold ChatStore.new in Hc. cbn in Hc.
    rewrite map_lookup_imap in Hc.
    destruct (chats !! id) as [ms|]; [|discriminate].
    cbn in Hc. injection Hc as <-. reflexivity.
  - intros st id messages Hk k c Hc. unfold ChatStore.addChat in Hc.
    cbn in Hc. destruct (decide (k = id)) as [->|Hne].
    + rewrite lookup_insert_eq in Hc. injection Hc as <-. reflexivity.
    + rewrite lookup_insert_ne in Hc by done. exact (Hk k c Hc).
  - intros st call id Hk.
    destruct call; cbn [storeAfter];
      unfold ChatStore.getStatus, ChatStore.getMessages, ChatStore.getError,
        ChatStore.getLastMessage, ChatStore.setStatus, ChatStore.setMessages,
        ChatStore.submitMessage, ChatStore.resubmitLastUserMessage,
        ChatStore.resumeStream, ChatStore.addToolResult, ChatStore.stopStream,
        ChatStore.removeAssistantResponse;
      apply onClient_keyed; try exact Hk; intros w; cbn [fst].
    + reflexivity.
    + reflexivity.
    + reflexivity.
    + reflexivity.
    + destruct (decide _); reflexivity.
    + reflexivity.
    + apply submitMessage_id.
    + apply resubmitLastUserMessage_id.
    + apply triggerRequest_id.
    + apply addToolResult_id.
    + apply stopStream_id.
    + apply removeAssistantResponse_id.
Qed.

Lemma store_chats_stay_keyed_witness :
  keyed (storeAfter Sample.idle (AddToolResult 3 "call-1" "sunny") "other"
           (ChatStore.addChat "next" [Sample.hi; Sample.asking]
              (ChatStore.new {[ "chat"%string := [Sample.hi] ]}))).
Proof.
  apply (proj2 (proj2 (store_chats_stay_keyed Sample.idle))).
  apply (proj1 (proj2 (store_chats_stay_keyed Sample.idle))).
  apply (proj1 (store_chats_stay_keyed Sample.idle)).
Defined.

Lemma onClient_present {A} id (method : World.t → World.t * A)
    (st : ChatStore.t) c :
  ChatStore.chats st !! id = Some c →
  ChatStore.onClient id method st
  = (ChatStore.mk
       (<[id := World.chat (fst (method (World.mk c (ChatStore.rt st))))]>
          (ChatStore.chats st))
       (World.rt (fst (method (World.mk c (ChatStore.rt st))))),
     snd (method (World.mk c (ChatStore.rt st)))).
Proof.
  intros Hc. unfold ChatStore.onClient.
  rewrite (getClient_present id st c Hc).
  destruct (method _) as [w a]. reflexivity.
Qed.

Lemma onClient_read {A} id (read : World.t → A) (st : ChatStore.t) c :
  ChatStore.chats st !! id = Some c →
  ChatStore.onClient id (λ w, (w, read w)) st
  = (st, read (World.mk c (ChatStore.rt st))).
Proof.
  intros Hc. rewrite (onClient_present id _ st c Hc). cbn.
  destruct st as [chats rt]. cbn in *. f_equal. f_equal. by apply insert_id.
Qed.

(** X11: reading an existing chat through the store changes nothing and
    returns what the chat holds: its status, its error, its messages, and
    as last message the last of them ([undefined] for an empty chat). *)
Theorem store_reads_are_pure id (st : ChatStore.t) c :
  ChatStore.chats st !! id = Some c →
  ChatStore.getStatus id st = (st, ChatState.status c)
  ∧ ChatStore.getError id st = (st, ChatState.error c)
  ∧ ChatStore.getMessages id st = (st, ChatState.messages c)
  ∧ ChatStore.getLastMessage id st = (st, last (ChatState.messages c)).
Proof.
  intros Hc.
  unfold ChatStore.getStatus, ChatStore.getError, ChatStore.getMessages,
    ChatStore.getLastMessage.
  rewrite !(onClient_read id _ st c Hc).
  repeat split. cbn. f_equal. apply js_index_last.
Qed.

Lemma store_reads_are_pure_witness :
  ChatStore.getStatus "chat" Sample.store = (Sample.store, error)
  ∧ ChatStore.getError "chat" Sample.store = (Sample.store, Some Sample.boom)
  ∧ ChatStore.getMessages "chat" Sample.store = (Sample.store, [Sample.hi])
  ∧ ChatStore.getLastMessage "chat" Sample.store
    = (Sample.store, Some Sample.hi).
Proof.
  apply (store_reads_are_pure "chat" Sample.store
           (ChatState.mk "chat" [Sample.hi] error (Some Sample.boom) None)).
  reflexivity.
Defined.

(** X12: [addChat] files a fresh chat under the id: status [ready], no
    error, no active response and the given messages, which is what a read
    then returns.  A chat already filed under the id is replaced, with its
    status and error gone; the other chats stay, the count grows by one
    only for a new id, and no subscriber is notified. *)
Theorem addChat_spec id messages (st : ChatStore.t) :
  let st' := ChatStore.addChat id messages st in
  ChatStore.chats st' !! id = Some (ChatState.mk id messages ready None None)
  ∧ ChatStore.getMessages id st' = (st', messages)
  ∧ ChatStore.getStatus id st' = (st', ready)
  ∧ ChatStore.hasChat id st' = true
  ∧ (∀ id', id' ≠ id → ChatStore.chats st' !! id' = ChatStore.chats st !! id')
  ∧ ChatStore.chatCount st'
    = (if ChatStore.hasChat id st then ChatStore.chatCount st
       else S (ChatStore.chatCount st))
  ∧ ChatStore.rt st' = ChatStore.rt st.
Proof.
  cbv zeta.
  assert (Hc : ChatStore.chats (ChatStore.addChat id messages st) !! id
               = Some (ChatState.mk id messages ready None None))
    by apply lookup_insert_eq.
  split; [exact Hc|].
  split; [unfold ChatStore.getMessages; by rewrite (onClient_read id _ _ _ Hc)|].
  split; [unfold ChatStore.getStatus; by rewrite (onClient_read id _ _ _ Hc)|].
  split; [unfold ChatStore.hasChat; rewrite Hc; by apply bool_decide_eq_true|].
  split; [intros id' Hne; by apply lookup_insert_ne|].
  split; [|reflexivity].
  unfold ChatStore.chatCount, ChatStore.hasChat, ChatStore.addChat. cbn.
  destruct (ChatStore.chats st !! id) as [c|] eqn:Hold.
  - rewrite bool_decide_eq_true_2 by eauto.
    by apply map_size_insert_Some.
  - rewrite bool_decide_eq_false_2 by (by intros [? ?]).
    by apply map_size_insert_None.
Qed.

Lemma addChat_spec_witness :
  let st' := ChatStore.addChat "chat" [Sample.hi; Sample.answered] Sample.store in
  ChatStore.getStatus "chat" st' = (st', ready)
  ∧ ChatStore.chatCount st' = ChatStore.chatCount Sample.store
  ∧ ChatStore.chats (ChatStore.addChat "next" [] Sample.store) !! "chat"
    = ChatStore.chats Sample.store !! "chat".
Proof.
  cbv zeta. split; [|split].
  - apply (addChat_spec "chat" [Sample.hi; Sample.answered] Sample.store).
  - apply (addChat_spec "chat" [Sample.hi; Sample.answered] Sample.store).
  - apply (addChat_spec "next" [] Sample.store). discriminate.
Defined.

(** X13: [ChatStore.setMessages] stores the given list for the chat,
    creating the chat when the id is unknown, so that reading the messages
    back returns it; status, error and active response of the chat stay,
    and every subscriber is told once, in subscription order, that the
    messages of this chat changed. *)
Theorem store_setMessages_spec id messages (st : ChatStore.t) :
  keyed st →
  let c := fst (ChatStore.getClient id st) in
  let st' := ChatStore.setMessages id messages st in
  ChatStore.chats st' !! id
  = Some (ChatState.mk id messages (ChatState.status c) (ChatState.error c)
            (ChatState.activeResponse c))
  ∧ snd (ChatStore.getMessages id st') = messages
  ∧ Runtime.log (ChatStore.rt st')
    = Runtime.log (ChatStore.rt st)
        ++ map (λ s, OnChatChanged s
                       (ChatStoreEvent.mk chat_messages_changed id None))
             (Runtime.subscribers (ChatStore.rt st))
  ∧ Runtime.subscribers (ChatStore.rt st')
    = Runtime.subscribers (ChatStore.rt st).
Proof.
  intros Hk. cbv zeta.
  pose proof (getClient_id id st Hk) as Hid.
  assert (Hc : ChatStore.chats (ChatStore.setMessages id messages st) !! id
               = Some (ChatState.mk id messages
                         (ChatState.status (fst (ChatStore.getClient id st)))
                         (ChatState.error (fst (ChatStore.getClient id st)))
                         (ChatState.activeResponse
                            (fst (ChatStore.getClient id st))))).
  { unfold ChatStore.setMessages. rewrite onClient_lookup. cbn.
    by rewrite Hid. }
  split; [exact Hc|].
  split; [unfold ChatStore.getMessages; by rewrite (onClient_read id _ _ _ Hc)|].
  clear Hc.
  unfold ChatStore.setMessages, ChatStore.onClient, ChatStore.getClient in *.
  destruct (ChatStore.chats st !! id) as [c|]; cbn in *; try rewrite Hid;
    split; reflexivity.
Qed.

Lemma store_setMessages_spec_witness :
  snd (ChatStore.getMessages "chat"
         (ChatStore.setMessages "chat" [Sample.hi; Sample.answered]
            Sample.store))
  = [Sample.hi; Sample.answered]
  ∧ Runtime.log (ChatStore.rt (ChatStore.setMessages "chat"
                                 [Sample.hi; Sample.answered] Sample.store))
    = [OnChatChanged 7 (ChatStoreEvent.mk chat_messages_changed "chat" None)].
Proof.
  split;
    apply (store_setMessages_spec "chat" [Sample.hi; Sample.answered]
             Sample.store);
    intros id c; unfold Sample.store; cbn [ChatStore.chats];
    intros [<- <-]%lookup_singleton_Some; reflexivity.
Defined.

(** X14: [ChatStore.setStatus] with a status other than the chat's current
    one stores the status together with the error passed along (no error
    when none is passed, so that an earlier error is dropped), keeps the
    messages, and tells every subscriber once that the status of this chat
    changed, handing on the error. *)
Theorem store_setStatus_new_status id status err (st : ChatStore.t) :
  keyed st →
  ChatState.status (fst (ChatStore.getClient id st)) ≠ status →
  let c := fst (ChatStore.getClient id st) in
  let st' := ChatStore.setStatus id status err st in
  ChatStore.chats st' !! id
  = Some (ChatState.mk id (ChatState.messages c) status err
            (ChatState.activeResponse c))
  ∧ snd (ChatStore.getStatus id st') = status
  ∧ snd (ChatStore.getError id st') = err
  ∧ Runtime.log (ChatStore.rt st')
    = Runtime.log (ChatStore.rt st)
        ++ map (λ s, OnChatChanged s
                       (ChatStoreEvent.mk chat_status_changed id err))
             (Runtime.subscribers (ChatStore.rt st)).
Proof.
  intros Hk Hs. cbv zeta.
  pose proof (getClient_id id st Hk) as Hid.
  assert (Hc : ChatStore.chats (ChatStore.setStatus id status err st) !! id
               = Some (ChatState.mk id
                         (ChatState.messages (fst (ChatStore.getClient id st)))
                         status err
                         (ChatState.activeResponse
                            (fst (ChatStore.getClient id st))))).
  { unfold ChatStore.setStatus. rewrite onClient_lookup.
    unfold statusOf. cbn [World.chat].
    destruct (decide _) as [|_]; [contradiction|]. cbn. by rewrite Hid. }
  split; [exact Hc|].
  split; [unfold ChatStore.getStatus; by rewrite (onClient_read id _ _ _ Hc)|].
  split; [unfold ChatStore.getError; by rewrite (onClient_read id _ _ _ Hc)|].
  clear Hc.
  unfold ChatStore.setStatus, ChatStore.onClient, ChatStore.getClient in *.
  destruct (ChatStore.chats st !! id) as [c|]; cbn [fst snd] in *;
    unfold statusOf; cbn [World.chat];
    (destruct (decide _) as [|_]; [contradiction|]); cbn in *;
    try rewrite Hid; reflexivity.
Qed.

Lemma store_setStatus_new_status_witness :
  snd (ChatStore.getError "chat"
         (ChatStore.setStatus "chat" ready None Sample.store)) = None
  ∧ Runtime.log (ChatStore.rt (ChatStore.setStatus "chat" ready None
                                 Sample.store))
    = [OnChatChanged 7 (ChatStoreEvent.mk chat_status_changed "chat" None)].
Proof.
  split;
    apply (store_setStatus_new_status "chat" ready None Sample.store);
    try discriminate;
    intros id c; unfold Sample.store; cbn [ChatStore.chats];
    intros [<- <-]%lookup_singleton_Some; reflexivity.
Defined.

Lemma notificationsOf_app s l1 l2 :
  notificationsOf s (l1 ++ l2) = notificationsOf s l1 ++ notificationsOf s l2.
Proof. apply omap_app. Qed.

Lemma notificationsOf_absent s event (subscribers : list nat) :
  s ∉ subscribers →
  notificationsOf s (map (λ s', OnChatChanged s' event) subscribers) = [].
Proof.
  induction subscribers as [|s' l IH]; intros Hs; [reflexivity|].
  apply not_elem_of_cons in Hs as [Hne Hl]. cbn.
  destruct (decide (s' = s)); [congruence|]. by apply IH.
Qed.

Lemma notificationsOf_present s event (subscribers : list nat) :
  NoDup subscribers → s ∈ subscribers →
  notificationsOf s (map (λ s', OnChatChanged s' event) subscribers) = [event].
Proof.
  induction 1 as [|s' l Hnotin Hnd IH]; intros Hs; [by apply elem_of_nil in Hs|].
  cbn. destruct (decide (s' = s)) as [->|Hne].
  - f_equal. by apply notificationsOf_absent.
  - apply elem_of_cons in Hs as [->|Hs]; [done|]. by apply IH.
Qed.

(** X15: the subscribers of a store form a set.  Subscribing adds the
    subscriber once (a second time changes nothing), unsubscribing removes
    it and undoes a fresh subscription.  A subscriber receives each event
    exactly once while it is subscribed and nothing once it is not: a
    [setMessages] tells it once after [subscribe] and not at all after
    [unsubscribe]. *)
Theorem subscriptions_spec s id messages (st : ChatStore.t) :
  NoDup (Runtime.subscribers (ChatStore.rt st)) →
  NoDup (Runtime.subscribers (ChatStore.rt (ChatStore.subscribe s st)))
  ∧ ChatStore.subscribe s (ChatStore.subscribe s st) = ChatStore.subscribe s st
  ∧ (s ∉ Runtime.subscribers (ChatStore.rt (ChatStore.unsubscribe s st)))
  ∧ (s ∉ Runtime.subscribers (ChatStore.rt st) →
     ChatStore.unsubscribe s (ChatStore.subscribe s st) = st)
  ∧ (∃ event,
       ChatStoreEvent.type event = chat_messages_changed
       ∧ notificationsOf s
           (Runtime.log (ChatStore.rt (ChatStore.setMessages id messages
                                         (ChatStore.subscribe s st))))
         = notificationsOf s (Runtime.log (ChatStore.rt st)) ++ [event])
  ∧ notificationsOf s
      (Runtime.log (ChatStore.rt (ChatStore.setMessages id messages
                                    (ChatStore.unsubscribe s st))))
    = notificationsOf s (Runtime.log (ChatStore.rt st)).
Proof.
  intros Hnd.
  assert (Hin : s ∈ Runtime.subscribers
                      (ChatStore.rt (ChatStore.subscribe s st))).
  { unfold ChatStore.subscribe. cbn.
    destruct (decide _); [assumption|].
    apply elem_of_app. right. by apply list_elem_of_singleton. }
  assert (Hnd' : NoDup (Runtime.subscribers
                          (ChatStore.rt (ChatStore.subscribe s st)))).
  { unfold ChatStore.subscribe. cbn.
    destruct (decide _) as [|Hnotin]; [assumption|].
    apply NoDup_app. split; [assumption|]. split; [|apply NoDup_singleton].
    intros x Hx ->%list_elem_of_singleton. contradiction. }
  assert (Hout : s ∉ Runtime.subscribers
                       (ChatStore.rt (ChatStore.unsubscribe s st))).
  { unfold ChatStore.unsubscribe. cbn.
    intros [Hne _]%list_elem_of_filter. by apply Hne. }
  assert (Hlog : ∀ st0,
    Runtime.log (ChatStore.rt (ChatStore.setMessages id messages st0))
    = Runtime.log (ChatStore.rt st0)
        ++ map (λ s', OnChatChanged s'
                        (ChatStoreEvent.mk chat_messages_changed
                           (ChatState.id (fst (ChatStore.getClient id st0)))
                           None))
             (Runtime.subscribers (ChatStore.rt st0))).
  { intros st0.
    unfold ChatStore.setMessages, ChatStore.onClient, ChatStore.getClient.
    destruct (ChatStore.chats st0 !! id); reflexivity. }
  split; [exact Hnd'|]. split; [|split; [exact Hout|split; [|split]]].
  - unfold ChatStore.subscribe at 1. cbn [ChatStore.rt ChatStore.chats].
    destruct (decide _) as [_|Hno]; [|contradiction].
    by destruct (ChatStore.subscribe s st) as [chats []].
  - intros Hnotin. unfold ChatStore.unsubscribe, ChatStore.subscribe. cbn.
    destruct (decide _) as [|_]; [contradiction|]. cbn.
    rewrite filter_app, filter_cons_False, filter_nil, app_nil_r
      by (intros Hne; by apply Hne).
    assert (Hf : filter (λ s0, s0 ≠ s) (Runtime.subscribers (ChatStore.rt st))
                 = Runtime.subscribers (ChatStore.rt st)).
    { clear -Hnotin.
      induction (Runtime.subscribers (ChatStore.rt st)) as [|x l IH];
        [reflexivity|].
      apply not_elem_of_cons in Hnotin as [Hne Hl].
      rewrite filter_cons_True by congruence. f_equal. by apply IH. }
    rewrite Hf. by destruct st as [chats []].
  - rewrite Hlog, notificationsOf_app.
    rewrite (notificationsOf_present s _ _ Hnd' Hin).
    eexists. split; [|reflexivity]. reflexivity.
  - rewrite Hlog, notificationsOf_app.
    rewrite (notificationsOf_absent s _ _ Hout). apply app_nil_r.
Qed.

Lemma subscriptions_spec_witness :
  ChatStore.unsubscribe 9 (ChatStore.subscribe 9 Sample.store) = Sample.store
  ∧ notificationsOf 7
      (Runtime.log (ChatStore.rt (ChatStore.setMessages "chat" []
                                    (ChatStore.unsubscribe 7 Sample.store))))
    = [].
Proof.
  split.
  - apply (subscriptions_spec 9 "chat" [] Sample.store).
    + apply NoDup_singleton.
    + cbn. intros H%list_elem_of_singleton. discriminate.
  - apply (subscriptions_spec 7 "chat" [] Sample.store).
    apply NoDup_singleton.
Defined.

(** X16: a new store holds exactly the chats it was given, each under its
    id with its messages, in status [ready] and without an error; it has
    no subscriber and has notified nobody. *)
Theorem store_new_spec (chats : gmap string (list UIMessage.t)) :
  (∀ id, ChatStore.chats (ChatStore.new chats) !! id
         = (λ messages, ChatState.mk id messages ready None None)
             <$> chats !! id)
  ∧ (∀ id, ChatStore.hasChat id (ChatStore.new chats)
           = bool_decide (is_Some (chats !! id)))
  ∧ ChatStore.chatCount (ChatStore.new chats) = size chats
  ∧ ChatStore.rt (ChatStore.new chats) = Runtime.init.
Proof.
  assert (Hlook : ∀ id, ChatStore.chats (ChatStore.new chats) !! id
                        = (λ messages, ChatState.mk id messages ready None None)
                            <$> chats !! id).
  { intros id. unfold ChatStore.new. cbn. rewrite map_lookup_imap.
    by destruct (chats !! id). }
  split; [exact Hlook|]. split; [|split; [|reflexivity]].
  - intros id. unfold ChatStore.hasChat. rewrite Hlook.
    apply bool_decide_ext. by rewrite fmap_is_Some.
  - unfold ChatStore.chatCount. rewrite <- !size_dom. f_equal.
    apply set_eq. intros id. rewrite !elem_of_dom, Hlook.
    by rewrite fmap_is_Some.
Qed.

(* ===================================================================== *)
(** ** More about [ReactStateManager] *)
(* ===================================================================== *)

Lemma js_slice_all {A} (l : list A) : js_slice l 0 None = l.
Proof. rewrite js_slice_suffix by lia. reflexivity. Qed.

(** X17: [replaceMessage] with an index inside the list replaces exactly
    the message at that index.  With an index at or beyond the end it
    appends the message instead, and with index [-1] it does not replace
    the last message: the result is the list without its last message,
    then the new message, then the whole old list again.  In every case
    status, error and active response stay and each subscriber is notified
    once. *)
Theorem replaceMessage_spec (index : Z) (m : UIMessage.t) (w : World.t) :
  let w' := RSM.replaceMessage index m w in
  (0 ≤ index < Z.of_nat (length (messagesOf w)) →
   messagesOf w' = <[Z.to_nat index := m]> (messagesOf w))
  ∧ (Z.of_nat (length (messagesOf w)) ≤ index →
     messagesOf w' = messagesOf w ++ [m])
  ∧ (index = -1 →
     messagesOf w'
     = take (length (messagesOf w) - 1) (messagesOf w) ++ [m] ++ messagesOf w)
  ∧ statusOf w' = statusOf w
  ∧ errorOf w' = errorOf w
  ∧ activeResponseOf w' = activeResponseOf w
  ∧ logOf w'
    = logOf w ++ map (λ s, OnChatChanged s
                             (ChatStoreEvent.mk chat_messages_changed (idOf w)
                                None))
                   (Runtime.subscribers (World.rt w)).
Proof.
  cbv zeta.
  assert (Hms : messagesOf (RSM.replaceMessage index m w)
                = js_slice (messagesOf w) 0 (Some index) ++ [m]
                    ++ js_slice (messagesOf w) (index + 1) None)
    by reflexivity.
  split; [|split; [|split]]; [| | |repeat split].
  - intros [Hlo Hhi]. rewrite Hms.
    rewrite js_slice_prefix, js_slice_suffix by lia.
    replace (Z.to_nat (index + 1)) with (S (Z.to_nat index)) by lia.
    symmetry. apply insert_take_drop. lia.
  - intros Hge. rewrite Hms.
    rewrite js_slice_prefix, js_slice_suffix by lia.
    rewrite take_ge, drop_ge by lia. reflexivity.
  - intros ->. rewrite Hms.
    change (-1 + 1) with 0. rewrite js_slice_pop, js_slice_all. reflexivity.
Qed.

Lemma replaceMessage_spec_witness :
  let w := Sample.world [Sample.hi; Sample.asking; Sample.partial] ready None in
  messagesOf (RSM.replaceMessage 1 Sample.answered w)
  = [Sample.hi; Sample.answered; Sample.partial]
  ∧ messagesOf (RSM.replaceMessage 5 Sample.answered w)
    = [Sample.hi; Sample.asking; Sample.partial; Sample.answered]
  ∧ messagesOf (RSM.replaceMessage (-1) Sample.answered w)
    = [Sample.hi; Sample.asking; Sample.answered;
       Sample.hi; Sample.asking; Sample.partial].
Proof.
  cbv zeta. split; [|split].
  - apply (proj1 (replaceMessage_spec 1 Sample.answered
                    (Sample.world [Sample.hi; Sample.asking; Sample.partial]
                       ready None))).
    cbn. lia.
  - apply (proj1 (proj2 (replaceMessage_spec 5 Sample.answered
                    (Sample.world [Sample.hi; Sample.asking; Sample.partial]
                       ready None)))).
    cbn. lia.
  - apply (proj1 (proj2 (proj2 (replaceMessage_spec (-1) Sample.answered
                    (Sample.world [Sample.hi; Sample.asking; Sample.partial]
                       ready None))))).
    reflexivity.
Defined.

(** X18: [popMessage] removes exactly the last message and on an empty
    chat removes nothing (without failing), so that it undoes a
    [pushMessage]; [pushMessage] puts the message last and keeps all
    others.  Both notify every subscriber once, [popMessage] also when
    there was nothing to remove. *)
Theorem push_pop_spec (m : UIMessage.t) (w : World.t) :
  messagesOf (RSM.popMessage (RSM.pushMessage m w)) = messagesOf w
  ∧ messagesOf (RSM.pushMessage m w) = messagesOf w ++ [m]
  ∧ (messagesOf w = [] → messagesOf (RSM.popMessage w) = [])
  ∧ (∀ ms x, messagesOf w = ms ++ [x] → messagesOf (RSM.popMessage w) = ms)
  ∧ logOf (RSM.popMessage w)
    = logOf w ++ map (λ s, OnChatChanged s
                             (ChatStoreEvent.mk chat_messages_changed (idOf w)
                                None))
                   (Runtime.subscribers (World.rt w)).
Proof.
  assert (Hpop : ∀ w0 ms x, messagesOf w0 = ms ++ [x] →
                            messagesOf (RSM.popMessage w0) = ms).
  { intros w0 ms x Hms. rewrite popMessage_messages, Hms, length_app.
    cbn [length]. replace (length ms + 1 - 1)%nat with (length ms) by lia.
    apply take_app_length. }
  split; [|split; [|split; [|split]]].
  - apply (Hpop _ _ m). reflexivity.
  - reflexivity.
  - intros Hnil. rewrite popMessage_messages, Hnil. reflexivity.
  - apply Hpop.
  - reflexivity.
Qed.

Lemma push_pop_spec_witness :
  messagesOf (RSM.popMessage (Sample.world [] ready None)) = []
  ∧ messagesOf (RSM.popMessage (Sample.world [Sample.hi; Sample.asking] ready
                                  None))
    = [Sample.hi].
Proof.
  split.
  - apply (push_pop_spec Sample.hi (Sample.world [] ready None)). reflexivity.
  - apply (proj1 (proj2 (proj2 (proj2 (push_pop_spec Sample.hi
             (Sample.world [Sample.hi; Sample.asking] ready None)))))
             [Sample.hi] Sample.asking).
    reflexivity.
Defined.

(* ===================================================================== *)
(** ** The two chat states side by side *)
(* ===================================================================== *)

(** X19: the Svelte and the React implementation of the chat state stay in
    step under [setStatus], [setActiveResponse], [setMessages],
    [pushMessage] and [popMessage], and under [replaceMessage] for every
    index from 0 up to the length of the list (the client only ever
    replaces the last message).  Beyond the length they part: the React
    state appends the message, the Svelte state leaves holes before it. *)
Theorem chat_states_agree (c : ChatState.t) (s : SvelteChatState.t)
    (rt : Runtime.t) :
  sameChat c s →
  let w := World.mk c rt in
  (∀ status err,
     sameChat (World.chat (RSM.setStatus status err w))
       (SvelteChatState.setStatus status err s))
  ∧ (∀ a, sameChat (World.chat (RSM.setActiveResponse a w))
            (SvelteChatState.setActiveResponse a s))
  ∧ (∀ ms, sameChat (World.chat (RSM.setMessages ms w))
             (SvelteChatState.setMessages ms s))
  ∧ (∀ m, sameChat (World.chat (RSM.pushMessage m w))
            (SvelteChatState.pushMessage m s))
  ∧ sameChat (World.chat (RSM.popMessage w)) (SvelteChatState.popMessage s)
  ∧ (∀ index m, 0 ≤ index ≤ Z.of_nat (length (ChatState.messages c)) →
       sameChat (World.chat (RSM.replaceMessage index m w))
         (SvelteChatState.replaceMessage index m s))
  ∧ (∀ index m, Z.of_nat (length (ChatState.messages c)) < index →
       length (messagesOf (RSM.replaceMessage index m w))
       = S (length (ChatState.messages c))
       ∧ length (SvelteChatState.messages
                   (SvelteChatState.replaceMessage index m s))
         = S (Z.to_nat index)
       ∧ SvelteChatState.messages (SvelteChatState.replaceMessage index m s)
           !! length (ChatState.messages c) = Some None).
Proof.
  intros (Hid & Hms & Hst & Herr & Har). cbv zeta.
  split; [|split; [|split; [|split; [|split; [|split]]]]].
  - intros status err. repeat split; assumption.
  - intros a. repeat split; assumption.
  - intros ms. repeat split; assumption.
  - intros m. repeat split; try assumption.
    cbn. rewrite Hms, fmap_app. reflexivity.
  - repeat split; try assumption.
    cbn [SvelteChatState.popMessage SvelteChatState.messages].
    change (ChatState.messages (World.chat (RSM.popMessage (World.mk c rt))))
      with (js_slice (ChatState.messages c) 0 (Some (-1))).
    rewrite js_slice_pop, Hms, length_fmap, fmap_take. reflexivity.
  - intros index m Hi. repeat split; try assumption.
    cbn [SvelteChatState.replaceMessage SvelteChatState.messages].
    change (ChatState.messages
              (World.chat (RSM.replaceMessage index m (World.mk c rt))))
      with (js_slice (ChatState.messages c) 0 (Some index) ++ [m]
              ++ js_slice (ChatState.messages c) (index + 1) None).
    rewrite js_slice_prefix, js_slice_suffix by lia.
    unfold js_array_set. rewrite Hms, length_fmap.
    destruct (Z.ltb_spec index 0); [lia|].
    destruct (Z.ltb_spec index (Z.of_nat (length (ChatState.messages c)))).
    + replace (Z.to_nat (index + 1)) with (S (Z.to_nat index)) by lia.
      rewrite <- list_fmap_insert.
      rewrite (insert_take_drop _ _ m) by lia. reflexivity.
    + replace (Z.to_nat index - length (ChatState.messages c))%nat
        with 0%nat by lia.
      rewrite take_ge, drop_ge by lia.
      rewrite !fmap_app. reflexivity.
  - intros index m Hi.
    change (messagesOf (RSM.replaceMessage index m (World.mk c rt)))
      with (js_slice (ChatState.messages c) 0 (Some index) ++ [m]
              ++ js_slice (ChatState.messages c) (index + 1) None).
    rewrite js_slice_prefix, js_slice_suffix by lia.
    rewrite take_ge, drop_ge by lia.
    cbn [SvelteChatState.replaceMessage SvelteChatState.messages].
    unfold js_array_set. rewrite Hms, length_fmap.
    destruct (Z.ltb_spec index 0); [lia|].
    destruct (Z.ltb_spec index (Z.of_nat (length (ChatState.messages c))));
      [lia|].
    split; [|split].
    + rewrite !length_app. cbn. lia.
    + rewrite !length_app, length_fmap, length_replicate. cbn. lia.
    + rewrite lookup_app_r by (rewrite length_fmap; lia).
      rewrite length_fmap, Nat.sub_diag.
      destruct (Z.to_nat index - length (ChatState.messages c))%nat eqn:Hn;
        [lia|reflexivity].
Qed.

Lemma chat_states_agree_witness :
  let c := ChatState.mk "chat" [Sample.hi; Sample.asking] ready None None in
  let s := SvelteChatState.new "chat" (Some [Sample.hi; Sample.asking]) in
  sameChat (World.chat (RSM.replaceMessage 1 Sample.answered
                          (World.mk c Runtime.init)))
    (SvelteChatState.replaceMessage 1 Sample.answered s)
  ∧ sameChat (World.chat (RSM.popMessage (World.mk c Runtime.init)))
      (SvelteChatState.popMessage s)
  ∧ length (SvelteChatState.messages
              (SvelteChatState.replaceMessage 4 Sample.answered s)) = 5%nat.
Proof.
  cbv zeta.
  pose proof (chat_states_agree
                (ChatState.mk "chat" [Sample.hi; Sample.asking] ready None None)
                (SvelteChatState.new "chat" (Some [Sample.hi; Sample.asking]))
                Runtime.init) as H.
  destruct H as (_ & _ & _ & _ & Hpop & Hrep & Hfar).
  { repeat split. }
  split; [|split].
  - apply Hrep. cbn. lia.
  - exact Hpop.
  - apply (Hfar 4 Sample.answered). cbn. lia.
Defined.

(* ===================================================================== *)
(** ** The Svelte [Chat] class *)
(* ===================================================================== *)

(** X20: [handleSubmit] does nothing at all when the input is empty and
    there are no files.  Otherwise it submits one user message, made of the
    file parts followed by a text part holding the input (also when the
    input is empty), under a freshly generated id: the first request
    carries the old messages followed by that message, the old messages
    are all kept, and the input is empty afterwards. *)
Theorem handleSubmit_spec C fuel fileParts headers body (chat : SvelteChat.t) :
  let w := SvelteChat.world chat in
  let m := UIMessage.mk (Collaborators.generateId C (Runtime.ids (World.rt w)))
             user (map FilePart fileParts ++ [TextPart (SvelteChat.input chat)])
  in
  (SvelteChat.input chat = ""%string → fileParts = [] →
   SvelteChat.handleSubmit C fuel fileParts headers body chat = (chat, Settled))
  ∧ (SvelteChat.input chat ≠ ""%string ∨ fileParts ≠ [] →
     let after := fst (SvelteChat.handleSubmit C fuel fileParts headers body
                         chat) in
     SvelteChat.input after = ""%string
     ∧ take (length (messagesOf w)) (messagesOf (SvelteChat.world after))
       = messagesOf w
     ∧ (length (messagesOf w)
        < length (messagesOf (SvelteChat.world after)))%nat
     ∧ ∃ rest,
         requestsIn
           (logOf (SvelteChat.world
                     (fst (SvelteChat.handleSubmit C (S fuel) fileParts headers
                             body chat))))
         = requestsIn (logOf w)
             ++ TransportRequest.mk (idOf w) (messagesOf w ++ [m]) body headers
                  (Some (Runtime.controllers (World.rt w))) generate
             :: rest).
Proof.
  cbv zeta. split.
  - intros Hin Hfiles. unfold SvelteChat.handleSubmit.
    rewrite !bool_decide_eq_true_2 by assumption. reflexivity.
  - intros Hsome.
    assert (Hgo : bool_decide (SvelteChat.input chat = ""%string)
                  && bool_decide (fileParts = []) = false).
    { apply andb_false_iff.
      destruct Hsome; [left|right]; by apply bool_decide_eq_false. }
    assert (Hunfold : ∀ n,
      SvelteChat.handleSubmit C n fileParts headers body chat
      = (SvelteChat.mk ""%string (SvelteChat.onError chat)
           (SvelteChat.onToolCall chat) (SvelteChat.onFinish chat)
           (fst (ChatClient.triggerRequest C n generate
                   (SvelteChat.callOptions headers body chat)
                   (RSM.pushMessage
                      (UIMessage.mk
                         (Collaborators.generateId C
                            (Runtime.ids (World.rt (SvelteChat.world chat))))
                         user
                         (map FilePart fileParts
                            ++ [TextPart (SvelteChat.input chat)]))
                      (snd (ChatClient.generateId C (SvelteChat.world chat)))))),
         snd (ChatClient.triggerRequest C n generate
                (SvelteChat.callOptions headers body chat)
                (RSM.pushMessage
                   (UIMessage.mk
                      (Collaborators.generateId C
                         (Runtime.ids (World.rt (SvelteChat.world chat))))
                      user
                      (map FilePart fileParts
                         ++ [TextPart (SvelteChat.input chat)]))
                   (snd (ChatClient.generateId C (SvelteChat.world chat))))))).
    { intros n. unfold SvelteChat.handleSubmit. rewrite Hgo.
      unfold SvelteChat.append, ChatClient.submitMessage.
      cbn [ChatClient.generateId CreateUIMessage.id CreateUIMessage.role
             CreateUIMessage.parts SvelteChat.world SvelteChat.with_world
             SvelteChat.callOptions SvelteChat.onError SvelteChat.onToolCall
             SvelteChat.onFinish SvelteChat.input snd].
      destruct (ChatClient.triggerRequest _ _ _ _ _) as [w' done].
      reflexivity. }
    rewrite !Hunfold. cbn [fst SvelteChat.input SvelteChat.world].
    destruct (pushed_run C (SvelteChat.callOptions headers body chat)
                (SvelteChat.world chat) fuel
                (UIMessage.mk
                   (Collaborators.generateId C
                      (Runtime.ids (World.rt (SvelteChat.world chat))))
                   user
                   (map FilePart fileParts ++ [TextPart (SvelteChat.input chat)]))
                (snd (ChatClient.generateId C (SvelteChat.world chat)))
                eq_refl eq_refl eq_refl eq_refl) as [Hfirst Hk].
    split; [reflexivity|]. split; [|split].
    + apply (keeps_snoc_prefix _ _ _ Hk).
    + destruct Hk as [Hlen _]. rewrite length_app in Hlen.
      cbn [length] in Hlen. lia.
    + exact Hfirst.
Qed.

Lemma handleSubmit_spec_witness :
  SvelteChat.handleSubmit Sample.hello 1 [] None None (typing "")
  = (typing "", Settled)
  ∧ SvelteChat.input
      (fst (SvelteChat.handleSubmit Sample.hello 1 [] None None (typing "hi")))
    = ""%string
  ∧ ∃ rest,
      requestsIn
        (logOf (SvelteChat.world
                  (fst (SvelteChat.handleSubmit Sample.hello 1 ["a.png"%string]
                          None None (typing "")))))
      = [] ++ TransportRequest.mk "chat" 
                ([] ++ [UIMessage.mk "msg-0" user
                          [FilePart "a.png"; TextPart ""]])
                None None (Some 0%nat) generate
           :: rest.
Proof.
  split; [|split].
  - apply (proj1 (handleSubmit_spec Sample.hello 1 [] None None (typing "")));
      reflexivity.
  - apply (proj2 (handleSubmit_spec Sample.hello 1 [] None None (typing "hi"))).
    left. discriminate.
  - apply (proj2 (handleSubmit_spec Sample.hello 0 ["a.png"%string] None None
                    (typing ""))).
    right. discriminate.
Defined.

(* ===================================================================== *)
(** ** Abort controllers *)
(* ===================================================================== *)

Lemma consumeStream_active publishes activeResponse w a0 :
  activeResponseOf w = Some a0 →
  ∃ a, activeResponseOf
         (snd (ChatClient.consumeStream publishes activeResponse w)) = Some a
       ∧ ActiveResponse.abortController a
         = match publishes with
           | [] => ActiveResponse.abortController a0
           | _ => ActiveResponse.abortController activeResponse
           end.
Proof.
  revert activeResponse w a0.
  induction publishes as [|draft rest IH]; intros activeResponse w a0 Ha.
  - exists a0. split; [exact Ha|reflexivity].
  - cbn [ChatClient.consumeStream]. rewrite runUpdateMessageJob_eq, Ha.
    set (a1 := ActiveResponse.mk (StreamingUIMessageState.mk draft)
                 (ActiveResponse.abortController activeResponse)).
    destruct (IH a1 (ChatClient.write a1 (assign_activeResponse (Some a1) w)) a1)
      as (a & Hactive & Hctl).
    { rewrite (proj2 (proj2 (write_status _ _))). reflexivity. }
    exists a. split; [exact Hactive|].
    rewrite Hctl. by destruct rest.
Qed.

(** X21: [stopStream] called while a request is in flight, before or after
    any number of publishes, aborts the very controller that was handed to
    the transport with that request, and only clears the handle: the
    status and the messages published so far stay as they are.  A second
    call changes nothing more. *)
Theorem stop_in_flight C requestType opts w (n : nat) :
  let ws := inFlight C requestType opts w n in
  TransportRequest.abortController (requestFrom requestType opts w)
  = Some (Runtime.controllers (World.rt w))
  ∧ (statusOf ws = submitted ∨ statusOf ws = streaming)
  ∧ logOf (ChatClient.stopStream ws)
    = logOf ws ++ [Abort (Runtime.controllers (World.rt w))]
  ∧ messagesOf (ChatClient.stopStream ws) = messagesOf ws
  ∧ statusOf (ChatClient.stopStream ws) = statusOf ws
  ∧ (∃ a, activeResponseOf (ChatClient.stopStream ws) = Some a
          ∧ ActiveResponse.abortController a = None)
  ∧ ChatClient.stopStream (ChatClient.stopStream ws) = ChatClient.stopStream ws.
Proof.
  cbv zeta. unfold inFlight.
  set (ps := take n (Response.publishes (responseTo C requestType opts w))).
  set (w0 := afterSubmit C requestType opts (RSM.setStatus submitted None w)).
  assert (Hstatus : statusOf (snd (ChatClient.consumeStream ps
                                     (openedResponse C w) w0)) = submitted
                    ∨ statusOf (snd (ChatClient.consumeStream ps
                                       (openedResponse C w) w0)) = streaming).
  { destruct ps as [|d ps'] eqn:Hps; [left; reflexivity|].
    right.
    by destruct (consumeStream_published (d :: ps') (openedResponse C w) w0
                   ltac:(done)) as (Hs & _). }
  destruct (consumeStream_active ps (openedResponse C w) w0
              (openedResponse C w) eq_refl) as (a & Ha & Hctl).
  assert (Hc : ActiveResponse.abortController a
               = Some (Runtime.controllers (World.rt w)))
    by (rewrite Hctl; by destruct ps).
  set (ws := snd (ChatClient.consumeStream ps (openedResponse C w) w0)) in *.
  assert (Hstop : ChatClient.stopStream ws
                  = assign_activeResponse
                      (Some (ActiveResponse.mk (ActiveResponse.state a) None))
                      (record [Abort (Runtime.controllers (World.rt w))] ws)).
  { unfold ChatClient.stopStream.
    destruct (decide _) as [[H1 H2]|_]; [destruct Hstatus; congruence|].
    rewrite Ha, Hc. reflexivity. }
  split; [reflexivity|]. split; [exact Hstatus|].
  rewrite Hstop.
  split; [reflexivity|]. split; [reflexivity|]. split; [reflexivity|].
  split; [eexists; split; reflexivity|].
  unfold ChatClient.stopStream at 1.
  destruct (decide _) as [_|_]; reflexivity.
Qed.

Lemma requestCycle_controllers C requestType opts w :
  Runtime.controllers (World.rt (fst (ChatClient.requestCycle C requestType
                                        opts w)))
  = S (Runtime.controllers (World.rt w)).
Proof.
  rewrite requestCycle_eq.
  destruct (quiet_consumeStream
              (Response.publishes (responseTo C requestType opts w))
              (openedResponse C w) (afterSubmit C requestType opts w))
    as (_ & _ & _ & Hctl & _).
  change (Runtime.controllers (World.rt (afterSubmit C requestType opts w)))
    with (S (Runtime.controllers (World.rt w))) in Hctl.
  fold (afterStream C requestType opts w) in Hctl.
  destruct (afterStream C requestType opts w) as [activeResponse ws].
  cbn [snd] in Hctl.
  destruct (Response.result _) as [|err|typeError];
    [|destruct (String.eqb _ _)|]; cbn [fst].
  - destruct (CallOptions.onFinish opts); exact Hctl.
  - exact Hctl.
  - destruct (CallOptions.onError opts);
      [destruct (JsError.instanceofError err)|]; exact Hctl.
  - exact Hctl.
Qed.

(** X22: every request of a run gets an abort controller of its own: the
    controllers handed to the transport are new ones, created one after
    the other, so no two requests share a controller and aborting one
    request never aborts another. *)
Theorem each_request_has_its_own_controller C fuel requestType opts w :
  ∃ new,
    requestsIn (logOf (fst (ChatClient.triggerRequest C fuel requestType opts w)))
    = requestsIn (logOf w) ++ new
    ∧ map TransportRequest.abortController new
      = map Some (seq (Runtime.controllers (World.rt w)) (length new))
    ∧ NoDup (map TransportRequest.abortController new).
Proof.
  assert (H : ∃ new,
    requestsIn (logOf (fst (ChatClient.triggerRequest C fuel requestType opts w)))
    = requestsIn (logOf w) ++ new
    ∧ map TransportRequest.abortController new
      = map Some (seq (Runtime.controllers (World.rt w)) (length new))).
  { revert w. induction fuel as [|fuel IH]; intros w.
    - exists []. split; [by rewrite app_nil_r|reflexivity].
    - rewrite triggerRequest_S.
      pose proof (requestCycle_requests C requestType opts
                    (RSM.setStatus submitted None w)) as Hreq.
      rewrite (quiet_requests _ _ (quiet_setStatus submitted w)) in Hreq.
      change (requestFrom requestType opts (RSM.setStatus submitted None w))
        with (requestFrom requestType opts w) in Hreq.
      pose proof (requestCycle_controllers C requestType opts
                    (RSM.setStatus submitted None w)) as Hctl.
      change (Runtime.controllers (World.rt (RSM.setStatus submitted None w)))
        with (Runtime.controllers (World.rt w)) in Hctl.
      destruct (ChatClient.requestCycle _ _ _ _) as [w1 [| |err]];
        cbn [fst] in *.
      + exists [requestFrom requestType opts w]. split; [exact Hreq|reflexivity].
      + destruct (policyAfter C w w1).
        * destruct (IH w1) as (new & Hnew & Hmap).
          exists (requestFrom requestType opts w :: new). split.
          -- rewrite Hnew, Hreq, <- app_assoc. reflexivity.
          -- cbn [map length seq]. rewrite Hmap, Hctl. reflexivity.
        * exists [requestFrom requestType opts w].
          split; [exact Hreq|reflexivity].
      + exists [requestFrom requestType opts w].
        split; [exact Hreq|reflexivity]. }
  destruct H as (new & Hnew & Hmap).
  exists new. split; [exact Hnew|]. split; [exact Hmap|].
  rewrite Hmap. apply (NoDup_fmap_2 Some), NoDup_seq.
Qed.

(* ===================================================================== *)
(** ** The request of [addToolResult], awaited inside its job *)
(* ===================================================================== *)

Lemma requestCycleInJob_end C requestType opts w :
  let run := ChatClient.requestCycleInJob C requestType opts
               (RSM.setStatus submitted None w) in
  match snd run with
  | None => statusOf (fst run) = submitted
            ∧ is_Some (activeResponseOf (fst run))
  | Some (CatchThrew _) => leftBusy (fst run)
  | Some _ => atRest (fst run)
  end.
Proof.
  cbv zeta.
  destruct (requestCycleInJob_cases C requestType opts
              (RSM.setStatus submitted None w)) as [[_ ->]|[_ ->]];
    cbn [fst snd].
  - exact (requestCycle_end C requestType opts w).
  - split; [reflexivity|]. by eexists.
Qed.

(** X24: the request that the job of [addToolResult] triggers is awaited
    inside that job, and the jobs of the merger wait in the same executor
    behind it.  So when the response has anything to publish, the call
    never settles: the transport has been called once, and the chat stays
    in status [submitted] with the active response in place, its messages
    unchanged and nothing published.  Whatever the responses are, such a
    call either never settles, in that state, or ends like a call outside
    a job: at rest, or rejected with the chat left [submitted] or
    [streaming]. *)
Theorem request_in_job_waits_behind_itself C fuel requestType opts w :
  let publishes := Response.publishes (responseTo C requestType opts w) in
  let run := ChatClient.triggerRequestInJob C (S fuel) requestType opts w in
  (publishes ≠ [] →
   snd run = NeverSettles
   ∧ statusOf (fst run) = submitted
   ∧ errorOf (fst run) = None
   ∧ activeResponseOf (fst run) = Some (openedResponse C w)
   ∧ messagesOf (fst run) = messagesOf w
   ∧ logOf (fst run)
     = logOf (RSM.setStatus submitted None w)
         ++ [SubmitMessages (requestFrom requestType opts w)])
  ∧ match snd run with
    | NeverSettles =>
        statusOf (fst run) = submitted ∧ is_Some (activeResponseOf (fst run))
    | Ended (Rejected _) => leftBusy (fst run)
    | Ended _ => atRest (fst run)
    end.
Proof.
  cbv zeta. split.
  - intros Hne. rewrite triggerRequestInJob_S.
    destruct (requestCycleInJob_cases C requestType opts
                (RSM.setStatus submitted None w)) as [[Hp _]|[_ ->]].
    + rewrite responseTo_submitted in Hp. contradiction.
    + cbn [fst snd]. split; [reflexivity|]. split; [reflexivity|].
      split; [reflexivity|]. split; [reflexivity|]. split; reflexivity.
  - revert w. induction fuel as [|fuel IH]; intros w.
    + rewrite triggerRequestInJob_S.
      pose proof (requestCycleInJob_end C requestType opts w) as Hend.
      cbv zeta in Hend.
      destruct (ChatClient.requestCycleInJob _ _ _ _) as [w1 [[| |err]|]];
        cbn [fst snd] in *; [exact Hend| |exact Hend|exact Hend].
      destruct (policyAfter C w w1); exact Hend.
    + rewrite triggerRequestInJob_S.
      pose proof (requestCycleInJob_end C requestType opts w) as Hend.
      cbv zeta in Hend.
      destruct (ChatClient.requestCycleInJob _ _ _ _) as [w1 [[| |err]|]];
        cbn [fst snd] in *; [exact Hend| |exact Hend|exact Hend].
      destruct (policyAfter C w w1); [apply IH|exact Hend].
Qed.

Lemma request_in_job_waits_behind_itself_witness :
  let w := Sample.world [Sample.hi] ready None in
  let run := ChatClient.triggerRequestInJob Sample.hello 3 generate
               Sample.options w in
  snd run = NeverSettles
  ∧ statusOf (fst run) = submitted
  ∧ errorOf (fst run) = None
  ∧ activeResponseOf (fst run) = Some (openedResponse Sample.hello w)
  ∧ messagesOf (fst run) = messagesOf w
  ∧ logOf (fst run)
    = logOf (RSM.setStatus submitted None w)
        ++ [SubmitMessages (requestFrom generate Sample.options w)].
Proof.
  apply (proj1 (request_in_job_waits_behind_itself Sample.hello 2 generate
                  Sample.options (Sample.world [Sample.hi] ready None))).
  discriminate.
Defined.

(** The tool result of the sample chat, supplied while the chat is idle:
    against a transport that answers at once without publishing, the job
    ends with the chat [ready]; against one that streams an answer, the job
    waits for its own request, and the chat stays [submitted]. *)
Example scenario_tool_result_streamed :
  let run := ChatClient.addToolResult Sample.hello 5 "call-1" "sunny"
               (Sample.world [Sample.hi; Sample.asking] ready None) in
  snd run = NeverSettles
  ∧ statusOf (fst run) = submitted
  ∧ is_Some (activeResponseOf (fst run))
  ∧ messagesOf (fst run) = [Sample.hi; Sample.answered]
  ∧ length (requestsIn (logOf (fst run))) = 1%nat.
Proof.
  cbv zeta. split; [reflexivity|]. split; [reflexivity|].
  split; [by eexists|]. split; reflexivity.
Qed.

(** A stream that rejects with [null] after its first publish. *)
Example scenario_thrown_null :
  let run := ChatClient.submitMessage Sample.thrownNull 1
               (CreateUIMessage.mk None user [TextPart "hi"]) Sample.options
               (Sample.world [] ready None) in
  snd run = Rejected Sample.typeError
  ∧ statusOf (fst run) = streaming
  ∧ errorOf (fst run) = None
  ∧ activeResponseOf (fst run) = None
  ∧ onErrorCalls (logOf (fst run)) = [].
Proof. cbv zeta. repeat split. Qed.
